(** * ocmr: the fake truth generator of [fake/cmd_gen_truth.go]

    A shallow embedding of the truth-synthesis code of wardle/ocmr: the
    site-based discovery of candidate findings, the construction of a
    [Truth] for a diagnosis, the explicit (literal) truths, the sampling of
    a truth into an [ocmr.Record] and the replication count derived from
    the prevalence.

    Conventions of the embedding.
    - Go's [int] is [Z]; where an expression can leave the 64-bit range
      the wrap-around is written out ([wrap64]).
    - Go's [float64]/[float32] values are the rationals they denote ([Q]).
      The arithmetic of the age and of the replication count rounds every
      result to the nearest float64, ties to even ([float64.round]), one
      operation after the other as on amd64 (no fused multiply-add);
      [int(x)] truncates toward zero and gives the least int64 when the
      value is out of range, as on amd64.
    - A pointer [*snomed.Concept] is [option Concept], [None] being [nil].
    - [(T, error)] results are pairs, the error being [None] for [nil].
    - The package-level source of [math/rand] is a tape of raw draws
      threaded through the code; [panic] is an outcome of its own. *)

From stdpp Require Import base option list gmap strings.
From Stdlib Require Import ZArith QArith Qround Qpower Lia.

Local Open Scope Z_scope.

(** ** Outcomes: normal return or panic *)

Inductive PanicValue : Type :=
| PanicError (err : string)          (* checkError: panic(err) *)
| PanicIntn                          (* rand.Intn: "invalid argument to Intn" *)
| PanicIndex                         (* runtime: index out of range *)
| PanicNilDeref.                     (* runtime: nil pointer dereference *)

Inductive outcome (A : Type) : Type :=
| Return (a : A)
| Panic (p : PanicValue).

Arguments Return {A} a.
Arguments Panic {A} p.

(** Go's [error] interface value: [None] is [nil]. *)
Definition error : Type := option string.

(** ** float64 arithmetic

    A finite float64 is the rational it denotes.  [round] gives the
    float64 nearest to a rational, ties to even, with 53 bits of mantissa
    and the subnormal numbers below 2^-1022.  The exponent is not bounded
    above: a result beyond the largest float64 stays finite instead of
    becoming an infinity; [to_int] sends both out of the range of int64 to
    the same value. *)

(** Truncation toward zero. *)
Definition truncate (x : Q) : Z := Z.quot (Qnum x) (Zpos (Qden x)).

Module float64.

Definition pow2 (e : Z) : Q := (2 ^ e)%Q.

(** The binary exponent of a positive rational: 2^k <= x < 2^(k+1). *)
Definition ilog2 (x : Q) : Z :=
  let k := Z.log2 (Qnum x) - Z.log2 (Zpos (Qden x)) in
  if Qle_bool (pow2 k) x then k else k - 1.

(** The nearest integer, ties to even. *)
Definition rne (q : Q) : Z :=
  let f := Qfloor q in
  match (q - inject_Z f ?= 1 # 2)%Q with
  | Lt => f
  | Gt => f + 1
  | Eq => if Z.even f then f else f + 1
  end.

Definition round_pos (x : Q) : Q :=
  let e := Z.max (ilog2 x - 52) (-1074) in
  (inject_Z (rne (x / pow2 e)) * pow2 e)%Q.

Definition round (x : Q) : Q :=
  match Qnum x with
  | Z0 => 0%Q
  | Zpos _ => round_pos x
  | Zneg _ => (- round_pos (- x))%Q
  end.

(** [x * y] and [x + y] on float64 values. *)
Definition mul (x y : Q) : Q := round (x * y).
Definition add (x y : Q) : Q := round (x + y).

(** [float64(z)] for an int [z]. *)
Definition of_int (z : Z) : Q := round (inject_Z z).

(** [int(x)] for a float64 [x]. *)
Definition to_int (x : Q) : Z :=
  let t := truncate x in
  if (- 2 ^ 63 <=? t) && (t <? 2 ^ 63) then t else - 2 ^ 63.

End float64.

(** ** The package-level random source of math/rand

    The tape gives the raw value behind each call.  Every function keeps
    the contract of its Go counterpart: the range of the result and the
    panic of [Intn] on a non-positive bound.  Each call consumes one entry
    of the tape. *)

Module rand.

Definition Source : Type := nat -> Z.

Definition head (s : Source) : Z := s 0%nat.
Definition tail (s : Source) : Source := fun i => s (S i).

(** Computations over the random source that may panic. *)
Definition M (A : Type) : Type := Source -> outcome (A * Source).

Definition ret {A} (a : A) : M A := fun s => Return (a, s).

Definition bind {A B} (c : M A) (k : A -> M B) : M B :=
  fun s => match c s with
           | Return (a, s') => k a s'
           | Panic p => Panic p
           end.

Definition lift {A} (o : outcome A) : M A :=
  fun s => match o with
           | Return a => Return (a, s)
           | Panic p => Panic p
           end.

(** The value of an outcome, without the source it leaves. *)
Definition result {A} (o : outcome (A * Source)) : option A :=
  match o with
  | Return (a, _) => Some a
  | Panic _ => None
  end.

(** The source after [n] calls. *)
Definition skip (n : nat) (s : Source) : Source := Nat.iter n tail s.

(** The values a tape holds for the next call, by the function called. *)
Definition float64 (s : Source) : Q := Qmake (head s mod 2 ^ 53) (2 ^ 53).
Definition float32 (s : Source) : Q := Qmake (head s mod 2 ^ 24) (2 ^ 24).
Definition normFloat64 (s : Source) : Q := float64.round (Qmake (head s) (2 ^ 52)).

(** [rand.Intn(n)]: a value of [0, n); panics if [n <= 0]. *)
Definition Intn (n : Z) : M Z :=
  fun s => if n <=? 0 then Panic PanicIntn
           else Return (head s mod n, tail s).

(** [rand.Float64()]: a value k / 2^53 of [0, 1). *)
Definition Float64 : M Q :=
  fun s => Return (float64 s, tail s).

(** [rand.Float32()]: a value k / 2^24 of [0, 1). *)
Definition Float32 : M Q :=
  fun s => Return (float32 s, tail s).

(** [rand.NormFloat64()]: any float64; the tape entry is read in units of
    2^-52. *)
Definition NormFloat64 : M Q :=
  fun s => Return (normFloat64 s, tail s).

End rand.

Declare Scope go_scope.
Delimit Scope go_scope with go.
Notation "x <- c ;; k" := (rand.bind c (fun x => k))
  (at level 100, c at next level, right associativity) : go_scope.
Notation "c ;;; k" := (rand.bind c (fun _ => k))
  (at level 100, right associativity) : go_scope.

(** Comparison of float values. *)
Definition Qltb (x y : Q) : bool := negb (Qle_bool y x).

(** Wrap-around of a 64-bit signed [int]. *)
Definition wrap64 (z : Z) : Z := (z + 2 ^ 63) mod 2 ^ 64 - 2 ^ 63.

(** [l[i]]: panics when the index is out of range. *)
Definition index {A} (l : list A) (i : Z) : outcome A :=
  if (i <? 0) || (Z.of_nat (length l) <=? i) then Panic PanicIndex
  else match l !! Z.to_nat i with
       | Some a => Return a
       | None => Panic PanicIndex
       end.

(** Modelled from the spec: the helper [min] of package fake, used as
    `min(30, |candidates|)` and `min(meanAge, 20)`; its declaration is not
    in the file. *)
Definition min (a b : Z) : Z := if a <? b then a else b.

(** [checkError]: panics with the error when there is one. *)
Definition checkError (err : error) : outcome unit :=
  match err with
  | Some e => Panic (PanicError e)
  | None => Return tt
  end.

(** ** Package snomed (the ontology gateway)

    The snomed package is not among the verified sources.  Its data is
    reduced to what the code reads, and its operations are the fields of
    [DatabaseService]: every theorem holds for any implementation. *)

Module snomed.

Abbreviation Identifier := Z (only parsing).

Record Concept : Type := mkConcept {
  ConceptID : Identifier;
  FullySpecifiedName : string
}.

(** [*snomed.Concept]; [None] is the nil pointer. *)
Definition ConceptPtr : Type := option Concept.

(** The kind of an attribute relation; the code only names
    [snomed.FindingSite]. *)
Inductive RelationKind : Type := FindingSite.

Record DatabaseService : Type := mkDatabaseService {
  FetchConcept : Z -> ConceptPtr * error;
  FetchRecursiveChildren : ConceptPtr -> list ConceptPtr * error;
  GetAllParents : ConceptPtr -> list ConceptPtr * error;
  GetParentsOfKind : ConceptPtr -> RelationKind -> list ConceptPtr * error;
  GetChildrenOfKind : ConceptPtr -> RelationKind -> list ConceptPtr * error;
  GetSiblings : ConceptPtr -> list ConceptPtr * error;
  Genericise : ConceptPtr -> gmap Z ConceptPtr -> ConceptPtr * bool;
  (* package-level helpers and constants of snomed used by the code *)
  IsA : Concept -> Identifier -> bool;
  SctDisease : Identifier;
  SliceToMap : list ConceptPtr -> gmap Z ConceptPtr;
  MapToSlice : gmap Z ConceptPtr -> list ConceptPtr
}.

End snomed.

Import snomed.

(** ** Package ocmr ([ocmr/record.go]) *)

Module ocmr.

(** [Sex]: [Male = 1], [Female = 2]. *)
Inductive Sex : Type := Male | Female.

(** [Duration]: [Unknown = iota], [Acute], [Subacute], [Chronic],
    [Episodic]. *)
Inductive Duration : Type := Unknown | Acute | Subacute | Chronic | Episodic.

Record ClinicalFinding : Type := mkClinicalFinding {
  cf_Concept : ConceptPtr;
  cf_Parents : list ConceptPtr;
  cf_Duration : Duration
}.

Record Record_ : Type := mkRecord {
  Age : Z;
  Sex_ : Sex;
  Findings : list ClinicalFinding;
  Answer : ConceptPtr;
  Parents : list ConceptPtr
}.

End ocmr.

(** ** Package fake ([fake/cmd_gen_truth.go]) *)

Local Open Scope go_scope.

(** [SexBias]: [MenOnly = iota], [FemaleOnly], [NoSexBias]. *)
Inductive SexBias : Type := MenOnly | FemaleOnly | NoSexBias.

Record Problem : Type := mkProblem {
  Problem_ : ConceptPtr;          (* field Problem *)
  Duration : ocmr.Duration;
  Probability : Q
}.

Record Truth : Type := mkTruth {
  Diagnosis : ConceptPtr;
  Parents : list ConceptPtr;
  Problems : list Problem;
  SexBias_ : SexBias;             (* field SexBias *)
  MeanAge : Z;
  StdDevAge : Z
}.

Record explicitProblem : Type := mkExplicitProblem {
  conceptID : Identifier;
  duration : ocmr.Duration;
  probability : Q
}.

Record explicitTruth : Type := mkExplicitTruth {
  diagnosis : Identifier;
  problems : list explicitProblem;
  meanAge : Z;
  stdDevAge : Z
}.

(** *** relatedBySiteForDiagnosis *)

(** What the body of a loop hands to the rest of the function: go on with
    the accumulator, or leave the function with [return nil, err]. *)
Inductive flow (A : Type) : Type :=
| Next (a : A)
| ReturnErr (e : string).

Arguments Next {A} a.
Arguments ReturnErr {A} e.

(** [for _, site := range sites { genericSite, ok := dbs.Genericise(...) }] *)
Fixpoint genericise_sites (dbs : DatabaseService)
    (structures2 : gmap Z ConceptPtr) (sites : list ConceptPtr)
    (genericSites : list ConceptPtr) : list ConceptPtr :=
  match sites with
  | [] => genericSites
  | site :: rest =>
      let '(genericSite, ok) := Genericise dbs site structures2 in
      genericise_sites dbs structures2 rest
        (if ok then genericSites ++ [genericSite] else genericSites)
  end.

(** [for _, symptom := range symptoms { if symptom.IsA(...) == false ... }] *)
Fixpoint add_symptoms (dbs : DatabaseService) (symptoms : list ConceptPtr)
    (allSymptoms : gmap Z ConceptPtr) : outcome (gmap Z ConceptPtr) :=
  match symptoms with
  | [] => Return allSymptoms
  | symptom :: rest =>
      match symptom with
      | None => Panic PanicNilDeref
      | Some c =>
          add_symptoms dbs rest
            (if negb (IsA dbs c (SctDisease dbs))
             then <[ConceptID c := symptom]> allSymptoms
             else allSymptoms)
      end
  end.

(** [for _, child := range allChildren { ... }] *)
Fixpoint scan_children (dbs : DatabaseService) (allChildren : list ConceptPtr)
    (allSymptoms : gmap Z ConceptPtr) : outcome (flow (gmap Z ConceptPtr)) :=
  match allChildren with
  | [] => Return (Next allSymptoms)
  | child :: rest =>
      let '(symptoms, err) := GetChildrenOfKind dbs child FindingSite in
      match err with
      | Some e => Return (ReturnErr e)
      | None =>
          match add_symptoms dbs symptoms allSymptoms with
          | Return allSymptoms' => scan_children dbs rest allSymptoms'
          | Panic p => Panic p
          end
      end
  end.

(** [for _, site := range genericSites { allChildren, _ := ... }] *)
Fixpoint scan_sites (dbs : DatabaseService) (genericSites : list ConceptPtr)
    (allSymptoms : gmap Z ConceptPtr) : outcome (flow (gmap Z ConceptPtr)) :=
  match genericSites with
  | [] => Return (Next allSymptoms)
  | site :: rest =>
      let '(allChildren, _) := FetchRecursiveChildren dbs site in
      match scan_children dbs allChildren allSymptoms with
      | Return (Next allSymptoms') => scan_sites dbs rest allSymptoms'
      | Return (ReturnErr e) => Return (ReturnErr e)
      | Panic p => Panic p
      end
  end.

(** The generic sites of a diagnosis: lines 263 to 273. *)
Definition genericSitesOf (dbs : DatabaseService) (sites : list ConceptPtr)
    : list ConceptPtr :=
  let '(thoracic, err) := FetchConcept dbs 51185008 in
  let '(structures, err) := GetSiblings dbs thoracic in
  let structures := structures ++ [thoracic] in
  let structures2 := SliceToMap dbs structures in
  genericise_sites dbs structures2 sites [].

Definition relatedBySiteForDiagnosis (dbs : DatabaseService)
    (concept : ConceptPtr) : outcome (list ConceptPtr * error) :=
  let '(sites, err) := GetParentsOfKind dbs concept FindingSite in
  match err with
  | Some e => Return ([], Some e)
  | None =>
      let allSymptoms : gmap Z ConceptPtr := ∅ in
      let genericSites := genericSitesOf dbs sites in
      match scan_sites dbs genericSites allSymptoms with
      | Return (Next allSymptoms) => Return (MapToSlice dbs allSymptoms, None)
      | Return (ReturnErr e) => Return ([], Some e)
      | Panic p => Panic p
      end
  end.

(** *** generateTruth and its random draws *)

Definition randomDuration : rand.M ocmr.Duration :=
  let possible := [ocmr.Acute; ocmr.Subacute; ocmr.Chronic; ocmr.Episodic] in
  i <- rand.Intn (Z.of_nat (length possible) - 1) ;;
  rand.lift (index possible i).

Definition randomSexBias : rand.M SexBias :=
  let possible := [MenOnly; FemaleOnly; NoSexBias] in
  i <- rand.Intn (Z.of_nat (length possible) - 1) ;;
  rand.lift (index possible i).

Definition randomAge : rand.M Z :=
  f <- rand.Float32 ;;
  if Qltb (1 # 100) f then
    r <- rand.Intn 80 ;; rand.ret (r + 20)
  else rand.Intn 20.

(** [for i := 0; i < numSymptoms; i++ { ... problems[i] = problem }]; the
    argument counts the iterations left. *)
Fixpoint draw_problems (symptoms : list ConceptPtr) (totalSymptoms : Z)
    (left_ : nat) : rand.M (list Problem) :=
  match left_ with
  | O => rand.ret []
  | S left' =>
      i <- rand.Intn (totalSymptoms - 1) ;;
      symptom <- rand.lift (index symptoms i) ;;
      d <- randomDuration ;;
      p <- rand.Float64 ;;
      let problem := mkProblem symptom d p in
      rest <- draw_problems symptoms totalSymptoms left' ;;
      rand.ret (problem :: rest)
  end.

Definition generateTruth (db : DatabaseService) (diagnosis : ConceptPtr)
    : rand.M (option Truth * bool) :=
  related <- rand.lift (relatedBySiteForDiagnosis db diagnosis) ;;
  let '(symptoms, err) := related in
  rand.lift (checkError err) ;;;
  let totalSymptoms := Z.of_nat (length symptoms) in
  if 0 <? totalSymptoms then
    r <- rand.Intn (min 30 totalSymptoms) ;;
    let numSymptoms := 1 + r in
    let '(parents, err) := GetAllParents db diagnosis in
    rand.lift (checkError err) ;;;
    problems <- draw_problems symptoms totalSymptoms (Z.to_nat numSymptoms) ;;
    meanAge <- randomAge ;;
    let sd := min meanAge 20 in
    sexBias <- randomSexBias ;;
    stdDevAge <- rand.Intn sd ;;
    rand.ret (Some (mkTruth diagnosis parents problems sexBias meanAge stdDevAge), true)
  else rand.ret (None, false).

(** *** Sampling a truth: RandomSex, ToFinding, ToQuestion *)

Definition RandomSex (sb : SexBias) : rand.M ocmr.Sex :=
  match sb with
  | MenOnly => rand.ret ocmr.Male
  | FemaleOnly => rand.ret ocmr.Female
  | _ =>
      f <- rand.Float32 ;;
      if Qle_bool (1 # 2) f then rand.ret ocmr.Male else rand.ret ocmr.Female
  end.

Definition ToFinding (db : DatabaseService) (fp : Problem)
    : outcome ocmr.ClinicalFinding :=
  let '(parents, err) := GetAllParents db (Problem_ fp) in
  match checkError err with
  | Return _ => Return (ocmr.mkClinicalFinding (Problem_ fp) parents (Duration fp))
  | Panic p => Panic p
  end.

(** [for _, problem := range ft.Problems { if problem.Probability > rand.Float64() ... }] *)
Fixpoint sample_findings (db : DatabaseService) (problems : list Problem)
    (findings : list ocmr.ClinicalFinding) : rand.M (list ocmr.ClinicalFinding) :=
  match problems with
  | [] => rand.ret findings
  | problem :: rest =>
      u <- rand.Float64 ;;
      if Qltb u (Probability problem) then
        finding <- rand.lift (ToFinding db problem) ;;
        sample_findings db rest (findings ++ [finding])
      else sample_findings db rest findings
  end.

Definition ToQuestion (db : DatabaseService) (ft : Truth) : rand.M ocmr.Record_ :=
  findings <- sample_findings db (Problems ft) [] ;;
  age <- randomAge ;;
  age <- (if (0 <? MeanAge ft) && (0 <? StdDevAge ft) then
            z <- rand.NormFloat64 ;;
            let age := float64.to_int
                         (float64.add
                            (float64.mul z (float64.of_int (StdDevAge ft)))
                            (float64.of_int (MeanAge ft))) in
            rand.ret (if age <? 0 then 0 else age)
          else rand.ret age) ;;
  sex <- RandomSex (SexBias_ ft) ;;
  let '(parents, err) := GetAllParents db (Diagnosis ft) in
  rand.lift (checkError err) ;;;
  rand.ret (ocmr.mkRecord age sex findings (Diagnosis ft) parents).

(** *** Explicit truths *)

Definition toFakeProblem (db : DatabaseService) (ep : explicitProblem)
    : option Problem * error :=
  let '(concept, err) := FetchConcept db (conceptID ep) in
  match err with
  | Some e => (None, Some e)
  | None => (Some (mkProblem concept (duration ep) (probability ep)), None)
  end.

(** [for _, p := range et.problems { fp, err := p.toFakeProblem(db) ... }] *)
Fixpoint to_fake_problems (db : DatabaseService) (eps : list explicitProblem)
    (problems : list Problem) : flow (list Problem) :=
  match eps with
  | [] => Next problems
  | p :: rest =>
      match toFakeProblem db p with
      | (Some fp, None) => to_fake_problems db rest (problems ++ [fp])
      | (_, Some e) => ReturnErr e
      | (None, None) => Next problems   (* not reached: toFakeProblem gives a problem or an error *)
      end
  end.

Definition toFakeTruth (db : DatabaseService) (et : explicitTruth)
    : option Truth * error :=
  let '(diagnosis, err) := FetchConcept db (diagnosis et) in
  match err with
  | Some e => (None, Some e)
  | None =>
      match to_fake_problems db (problems et) [] with
      | ReturnErr e => (None, Some e)
      | Next problems =>
          let '(parents, err) := GetAllParents db diagnosis in
          match err with
          | Some e => (None, Some e)
          | None =>
              (Some (mkTruth diagnosis parents problems NoSexBias
                       (meanAge et) (stdDevAge et)), None)
          end
      end
  end.

Definition myocardialInfarction : explicitTruth :=
  mkExplicitTruth 22298006
    [ mkExplicitProblem 29857009 ocmr.Acute (95 # 100);    (* chest pain *)
      mkExplicitProblem 267036007 ocmr.Acute (70 # 100);   (* breathlessness *)
      mkExplicitProblem 415690000 ocmr.Acute (80 # 100);   (* sweating *)
      mkExplicitProblem 426555006 ocmr.Acute (55 # 100);   (* pain to jaw *)
      mkExplicitProblem 76388001 ocmr.Acute (60 # 100) ]   (* ST elevation on ECG *)
    60 20.

Definition MyocardialInfarctionTruth (db : DatabaseService) : option Truth * error :=
  toFakeTruth db myocardialInfarction.

(** *** GenerateFakeTruth: the number of questions of a truth *)

(** Line 52, [p := 5 + int(prevalence*10000)*n], for the prevalence that
    [calculatePrevalence] returned for the diagnosis. *)
Definition replicationCount (prevalence : Q) (n : Z) : Z :=
  wrap64 (5 + wrap64 (float64.to_int (float64.mul prevalence (inject_Z 10000)) * n)).

(** Lines 53 to 56, [for i := 0; i < p; i++ { questions = append(...) }];
    the argument counts the iterations left. *)
Fixpoint append_questions (db : DatabaseService) (truth : Truth) (left_ : nat)
    (questions : list ocmr.Record_) : rand.M (list ocmr.Record_) :=
  match left_ with
  | O => rand.ret questions
  | S left' =>
      question <- ToQuestion db truth ;;
      append_questions db truth left' (questions ++ [question])
  end.

Definition questionsOf (db : DatabaseService) (truth : Truth) (prevalence : Q)
    (n : Z) (questions : list ocmr.Record_) : rand.M (list ocmr.Record_) :=
  let p := replicationCount prevalence n in
  append_questions db truth (Z.to_nat p) questions.

(** *** GenerateFakeTruth

    [calculatePrevalence] is declared in another file of the package; it
    is a parameter here.  It is handed the gateway, the map of the
    prevalences found so far, which it may update, and the diagnosis. *)

Definition SctDiagnosisRoot : Z := 64572001.
Definition SctFinding : Z := 404684003.

Definition PrevalenceModel : Type :=
  DatabaseService -> gmap Z Q -> ConceptPtr -> outcome (Q * gmap Z Q).

(** Lines 34 to 37, [for i := 0; i < n; i++ { r := rand.Intn(l) ... }]; the
    argument counts the iterations left. *)
Fixpoint pick_diagnoses (allDiagnoses : list ConceptPtr) (l : Z) (left_ : nat)
    : rand.M (list ConceptPtr) :=
  match left_ with
  | O => rand.ret []
  | S left' =>
      r <- rand.Intn l ;;
      d <- rand.lift (index allDiagnoses r) ;;
      rest <- pick_diagnoses allDiagnoses l left' ;;
      rand.ret (d :: rest)
  end.

(** Lines 43 to 48, [for _, diag := range diagnoses { ... }]. *)
Fixpoint generate_truths (db : DatabaseService) (diagnoses : list ConceptPtr)
    (allTruth : list (option Truth)) : rand.M (list (option Truth)) :=
  match diagnoses with
  | [] => rand.ret allTruth
  | diag :: rest =>
      r <- generateTruth db diag ;;
      let '(truth, ok) := r in
      generate_truths db rest (if ok then allTruth ++ [truth] else allTruth)
  end.

(** Lines 51 to 57, [for _, truth := range allTruth { ... }]. *)
Fixpoint all_questions (calculatePrevalence : PrevalenceModel)
    (db : DatabaseService) (n : Z) (allTruth : list (option Truth))
    (prevalence : gmap Z Q) (questions : list ocmr.Record_)
    : rand.M (list ocmr.Record_) :=
  match allTruth with
  | [] => rand.ret questions
  | truth :: rest =>
      match truth with
      | None => rand.lift (Panic PanicNilDeref)
      | Some t =>
          pm <- rand.lift (calculatePrevalence db prevalence (Diagnosis t)) ;;
          let '(prev, prevalence') := pm in
          questions' <- questionsOf db t prev n questions ;;
          all_questions calculatePrevalence db n rest prevalence' questions'
      end
  end.

(** [GenerateFakeTruth], up to the questions that line 58 hands to
    [json.MarshalIndent]; the printing is not part of the model. *)
Definition GenerateFakeTruth (calculatePrevalence : PrevalenceModel)
    (db : DatabaseService) (n : Z) : rand.M (list ocmr.Record_) :=
  let '(rootDiagnosis, err) := FetchConcept db SctDiagnosisRoot in
  rand.lift (checkError err) ;;;
  let '(allDiagnoses, err) := FetchRecursiveChildren db rootDiagnosis in
  rand.lift (checkError err) ;;;
  diagnoses <- (if 0 <=? n
                then pick_diagnoses allDiagnoses (Z.of_nat (length allDiagnoses))
                       (Z.to_nat n)
                else rand.ret allDiagnoses) ;;
  let '(mi, err) := MyocardialInfarctionTruth db in
  rand.lift (checkError err) ;;;
  allTruth <- generate_truths db diagnoses [mi] ;;
  let prevalence : gmap Z Q := ∅ in
  all_questions calculatePrevalence db n allTruth prevalence [].

(** *** Rendering ([ocmr/record.go]): String and MarshalJSON

    [Sex] and [Duration] are [int] types in Go; the methods are modelled
    on the int, so that their default case is visible. *)

Definition Sex_int (sex : ocmr.Sex) : Z :=
  match sex with
  | ocmr.Male => 1
  | ocmr.Female => 2
  end.

Definition Duration_int (d : ocmr.Duration) : Z :=
  match d with
  | ocmr.Unknown => 0
  | ocmr.Acute => 1
  | ocmr.Subacute => 2
  | ocmr.Chronic => 3
  | ocmr.Episodic => 4
  end.

(** [Sex.MarshalJSON]; [jsonMarshal] is [json.Marshal] on strings. *)
Definition Sex_MarshalJSON (jsonMarshal : string -> string * error) (sex : Z)
    : string * error :=
  let s := if sex =? 1 then "male"
           else if sex =? 2 then "female"
           else "unknown" in
  jsonMarshal s.

(** [Duration.String]. *)
Definition Duration_String (d : Z) : string :=
  if d =? 1 then "Acute"
  else if d =? 2 then "Subacute"
  else if d =? 3 then "Chronic"
  else if d =? 4 then "Episodic"
  else "Unknown".

(** [Duration.MarshalJSON]. *)
Definition Duration_MarshalJSON (jsonMarshal : string -> string * error) (d : Z)
    : string * error :=
  jsonMarshal (Duration_String d).

(** [ClinicalFinding.String]. *)
Definition ClinicalFinding_String (cf : ocmr.ClinicalFinding) : outcome string :=
  let d := Duration_String (Duration_int (ocmr.cf_Duration cf)) in
  match ocmr.cf_Concept cf with
  | None => Panic PanicNilDeref
  | Some c => Return (d +:+ " " +:+ FullySpecifiedName c)
  end.

(** [strings.Join]. *)
Fixpoint Join (elems : list string) (sep : string) : string :=
  match elems with
  | [] => ""
  | [e] => e
  | e :: rest => e +:+ sep +:+ Join rest sep
  end.

(** [for _, finding := range q.Findings { findings = append(...) }] *)
Fixpoint finding_strings (fs : list ocmr.ClinicalFinding) (findings : list string)
    : outcome (list string) :=
  match fs with
  | [] => Return findings
  | finding :: rest =>
      match ClinicalFinding_String finding with
      | Return str => finding_strings rest (findings ++ [str])
      | Panic p => Panic p
      end
  end.

(** [Record.String]. *)
Definition Record_String (q : ocmr.Record_) : outcome string :=
  match finding_strings (ocmr.Findings q) [] with
  | Panic p => Panic p
  | Return findings =>
      match ocmr.Answer q with
      | None => Panic PanicNilDeref
      | Some a =>
          Return ("[" +:+ Join findings ", " +:+ "] --> " +:+ FullySpecifiedName a)
      end
  end.

(** ** Auxiliary definitions of the statements *)

(** The gateway [dbs] with other errors, [errs], on its queries for
    recursive children; the children themselves are unchanged. *)
Definition withChildrenErrors (dbs : DatabaseService)
    (errs : ConceptPtr -> error) : DatabaseService :=
  mkDatabaseService
    (FetchConcept dbs)
    (fun site => (fst (FetchRecursiveChildren dbs site), errs site))
    (GetAllParents dbs)
    (GetParentsOfKind dbs)
    (GetChildrenOfKind dbs)
    (GetSiblings dbs)
    (Genericise dbs)
    (IsA dbs)
    (SctDisease dbs)
    (SliceToMap dbs)
    (MapToSlice dbs).

(** The finding-site queries that discovery makes below the generic sites
    of a diagnosis: one for each recursive child of each generic site. *)
Definition childQueries (dbs : DatabaseService) (concept : ConceptPtr)
    : list ConceptPtr :=
  let sites := fst (GetParentsOfKind dbs concept FindingSite) in
  genericSitesOf dbs sites ≫= (fun site => fst (FetchRecursiveChildren dbs site)).

(** The value that entry [i] of the tape gives to a call of
    [rand.Float64]. *)
Definition draw64 (s : rand.Source) (i : nat) : Q :=
  Qmake (s i mod 2 ^ 53) (2 ^ 53).

(** The problems of a truth, with their positions, whose uniform draw is
    less than their probability; problem [i] has draw [i] of the tape. *)
Definition kept (problems : list Problem) (s : rand.Source) (from : nat)
    : list (nat * Problem) :=
  List.filter (fun ip => Qltb (draw64 s (fst ip)) (Probability (snd ip)))
    (zip (seq from (length problems)) problems).

Definition included (problems : list Problem) (s : rand.Source) : list Problem :=
  (kept problems s 0).*2.

(** The clinical finding of a problem, with the ancestors the gateway gives. *)
Definition findingOf (db : DatabaseService) (fp : Problem) : ocmr.ClinicalFinding :=
  ocmr.mkClinicalFinding (Problem_ fp) (fst (GetAllParents db (Problem_ fp)))
    (Duration fp).

(** Does the truth have a usable age distribution (line 164)? *)
Definition hasAgeModel (ft : Truth) : bool :=
  (0 <? MeanAge ft) && (0 <? StdDevAge ft).

(** The map of the high-level structures that discovery hands to
    [Genericise] (lines 263 to 266). *)
Definition structureMap (dbs : DatabaseService) : gmap Z ConceptPtr :=
  let '(thoracic, _) := FetchConcept dbs 51185008 in
  let '(structures, _) := GetSiblings dbs thoracic in
  SliceToMap dbs (structures ++ [thoracic]).

(** The symptoms that the finding-site queries below the generic sites of
    a diagnosis return. *)
Definition childSymptoms (dbs : DatabaseService) (concept : ConceptPtr)
    : list ConceptPtr :=
  childQueries dbs concept ≫= (fun child => fst (GetChildrenOfKind dbs child FindingSite)).

(** An entry of the map of candidates: a symptom of [symptoms] that is not
    a disease, under its own identifier. *)
Definition candidateEntry (dbs : DatabaseService) (symptoms : list ConceptPtr)
    (k : Z) (v : ConceptPtr) : Prop :=
  v ∈ symptoms /\
  exists c, v = Some c /\ ConceptID c = k /\ IsA dbs c (SctDisease dbs) = false.

(** The gateway [dbs] with other errors on its concept lookups and on its
    sibling queries; the concepts and the siblings are unchanged. *)
Definition withStructureErrors (dbs : DatabaseService)
    (lookupErrs : Z -> error) (siblingErrs : ConceptPtr -> error)
    : DatabaseService :=
  mkDatabaseService
    (fun i => (fst (FetchConcept dbs i), lookupErrs i))
    (FetchRecursiveChildren dbs)
    (GetAllParents dbs)
    (GetParentsOfKind dbs)
    (GetChildrenOfKind dbs)
    (fun c => (fst (GetSiblings dbs c), siblingErrs c))
    (Genericise dbs)
    (IsA dbs)
    (SctDisease dbs)
    (SliceToMap dbs)
    (MapToSlice dbs).

(** ** Example gateways and random tapes

    Small ontologies on which the code is run in the examples below. *)

Module Examples.

Definition concept (i : Z) : ConceptPtr := Some (mkConcept i "").

Definition sliceToMap (l : list ConceptPtr) : gmap Z ConceptPtr :=
  list_to_map (omap (fun p : ConceptPtr => (fun x => (ConceptID x, p)) <$> p) l).

Definition mapToSlice (m : gmap Z ConceptPtr) : list ConceptPtr :=
  (map_to_list m).*2.

(** A gateway in which every diagnosis has the one site 2, of generic
    site 51185008, whose only descendant has the findings [symptoms];
    [parentsErr] is the error of every ancestors query. *)
Definition gateway (symptoms : list ConceptPtr) (parentsErr : error)
    : DatabaseService :=
  mkDatabaseService
    (fun i => (concept i, None))
    (fun site => ([site], None))
    (fun _ => ([], parentsErr))
    (fun _ _ => ([concept 2], None))
    (fun _ _ => (symptoms, None))
    (fun _ => ([], None))
    (fun _ _ => (concept 51185008, true))
    (fun _ _ => false)
    64572001
    sliceToMap
    mapToSlice.

(** A gateway with two sites, 2 and 3, that are their own generic
    sites.  The descendants of site 2 cannot be fetched; site 3 has the
    descendant 30 with the finding 31. *)
Definition flakyGateway : DatabaseService :=
  mkDatabaseService
    (fun i => (concept i, None))
    (fun site => if from_option ConceptID 0 site =? 2
                 then ([], Some "descendants unavailable")
                 else ([concept 30], None))
    (fun _ => ([], None))
    (fun _ _ => ([concept 2; concept 3], None))
    (fun _ _ => ([concept 31], None))
    (fun _ => ([], None))
    (fun site _ => (site, true))
    (fun _ _ => false)
    64572001
    sliceToMap
    mapToSlice.

(** A gateway whose finding-site queries below the generic sites fail. *)
Definition brokenGateway : DatabaseService :=
  mkDatabaseService
    (fun i => (concept i, None))
    (fun site => ([site], None))
    (fun _ => ([], None))
    (fun _ _ => ([concept 2], None))
    (fun _ _ => ([], Some "relation table unavailable"))
    (fun _ => ([], None))
    (fun _ _ => (concept 51185008, true))
    (fun _ _ => false)
    64572001
    sliceToMap
    mapToSlice.

(** A gateway in which no diagnosis has a finding site. *)
Definition siteless : DatabaseService :=
  mkDatabaseService
    (fun i => (concept i, None))
    (fun site => ([site], None))
    (fun _ => ([], None))
    (fun _ _ => ([], None))
    (fun _ _ => ([concept 31], None))
    (fun _ => ([], None))
    (fun site _ => (site, true))
    (fun _ _ => false)
    64572001
    sliceToMap
    mapToSlice.

(** A gateway that does not know the concept 415690000 (sweating). *)
Definition partialGateway : DatabaseService :=
  mkDatabaseService
    (fun i => if i =? 415690000
              then (None, Some "concept 415690000 not found")
              else (concept i, None))
    (fun site => ([site], None))
    (fun _ => ([], Some "ancestors unavailable"))
    (fun _ _ => ([], None))
    (fun _ _ => ([], None))
    (fun _ => ([], None))
    (fun site _ => (site, true))
    (fun _ _ => false)
    64572001
    sliceToMap
    mapToSlice.

(** A prevalence model that finds every diagnosis equally rare. *)
Definition rarePrevalence : PrevalenceModel :=
  fun _ prevalence _ => Return (1 # 100000, prevalence).


(** A gateway in which every diagnosis has the site 2, and a site
    generalises to the structure 99 of the map it is given, if the map has
    it; the thoracic structure has no sibling, so no site generalises to
    a high-level structure. *)
Definition unmatched : DatabaseService :=
  mkDatabaseService
    (fun i => (concept i, None))
    (fun site => ([site], None))
    (fun _ => ([], None))
    (fun _ _ => ([concept 2], None))
    (fun _ _ => ([concept 31], None))
    (fun _ => ([], None))
    (fun _ m => match m !! 99 with
                | Some generic => (generic, true)
                | None => (None, false)
                end)
    (fun _ _ => false)
    64572001
    sliceToMap
    mapToSlice.

(** A tape whose fifth draw is 0x1999999999999 and whose other draws
    are 0. *)
Definition tenth : rand.Source :=
  fun i => if (i =? 4)%nat then 450359962737049 else 0.

Definition diagnosis1 : ConceptPtr := concept 1.

(** The tape on which every raw draw is 0. *)
Definition zeros : rand.Source := fun _ => 0.

(** A tape of growing raw draws. *)
Definition rising : rand.Source := fun i => 2 ^ 30 + 7 + Z.of_nat i.

(** An explicit truth whose standard deviation exceeds its mean age. *)
Definition wideTruth : explicitTruth :=
  mkExplicitTruth 22298006 [mkExplicitProblem 29857009 ocmr.Acute (95 # 100)] 10 50.

Definition sampleTruth (sb : SexBias) (mean sd : Z) : Truth :=
  mkTruth (concept 1) []
    [mkProblem (concept 3) ocmr.Acute (1 # 2); mkProblem (concept 4) ocmr.Chronic 0]
    sb mean sd.

End Examples.

(** ** Facts on float64 rounding *)

Lemma pow2_pos e : (0 < float64.pow2 e)%Q.
Proof. apply Qpower_0_lt. reflexivity. Qed.

Lemma pow2_add a b : (float64.pow2 (a + b) == float64.pow2 a * float64.pow2 b)%Q.
Proof. apply Qpower_plus. discriminate. Qed.

Lemma pow2_le a b : a <= b -> (float64.pow2 a <= float64.pow2 b)%Q.
Proof. intros H. apply Qpower_le_compat_l; [exact H|discriminate]. Qed.

Lemma pow2_Z a : 0 <= a -> (float64.pow2 a == inject_Z (2 ^ a))%Q.
Proof. intros H. symmetry. apply (Zpower_Qpower 2 a H). Qed.

Lemma inject_Z_le a b : a <= b -> (inject_Z a <= inject_Z b)%Q.
Proof. intros H. rewrite <- Zle_Qle. exact H. Qed.

Lemma Qmult_le_compat_l' x y z : (0 <= z)%Q -> (x <= y)%Q -> (z * x <= z * y)%Q.
Proof.
  intros Hz H. rewrite (Qmult_comm z x), (Qmult_comm z y).
  apply Qmult_le_compat_r; assumption.
Qed.

Lemma ilog2_spec x :
  (0 < x)%Q -> (float64.pow2 (float64.ilog2 x) <= x)%Q /\ (x < float64.pow2 (float64.ilog2 x + 1))%Q.
Proof.
  intros Hx. destruct x as [n d].
  assert (0 < n) as Hn by (unfold Qlt in Hx; simpl in Hx; lia).
  pose proof (Z.log2_spec n Hn) as Ha.
  pose proof (Z.log2_spec (Zpos d) ltac:(lia)) as Hb.
  pose proof (Z.log2_nonneg n) as Ha0.
  pose proof (Z.log2_nonneg (Zpos d)) as Hb0.
  set (a := Z.log2 n) in *. set (b := Z.log2 (Zpos d)) in *.
  assert ((n # d) * inject_Z (Zpos d) == inject_Z n)%Q as Hnd.
  { unfold Qeq, Qmult, inject_Z. simpl. lia. }
  assert (float64.pow2 b <= inject_Z (Zpos d))%Q as Hdl.
  { rewrite (pow2_Z b Hb0). apply inject_Z_le. lia. }
  assert (inject_Z (Zpos d) <= float64.pow2 (b + 1))%Q as Hdu.
  { rewrite (pow2_Z (b + 1)) by lia. apply inject_Z_le.
    replace (b + 1) with (Z.succ b) by lia. lia. }
  assert (float64.pow2 a <= inject_Z n)%Q as Hnl.
  { rewrite (pow2_Z a Ha0). apply inject_Z_le. lia. }
  assert (inject_Z n < float64.pow2 (a + 1))%Q as Hnu.
  { rewrite (pow2_Z (a + 1)) by lia. rewrite <- Zlt_Qlt.
    replace (a + 1) with (Z.succ a) by lia. lia. }
  assert (0 <= n # d)%Q as Hx0 by (apply Qlt_le_weak; exact Hx).
  unfold float64.ilog2. cbn [Qnum Qden]. fold a b.
  destruct (Qle_bool (float64.pow2 (a - b)) (n # d)) eqn:E.
  - apply Qle_bool_iff in E. split; [exact E|].
    apply (Qmult_lt_r _ _ (float64.pow2 b) (pow2_pos b)).
    rewrite <- pow2_add. replace (a - b + 1 + b) with (a + 1) by lia.
    eapply Qle_lt_trans; [|exact Hnu]. rewrite <- Hnd.
    apply Qmult_le_compat_l'; assumption.
  - assert (n # d < float64.pow2 (a - b))%Q as Hlt.
    { apply Qnot_le_lt. intros H. apply Qle_bool_iff in H. congruence. }
    split; [|replace (a - b - 1 + 1) with (a - b) by lia; exact Hlt].
    apply (Qmult_le_r _ _ (float64.pow2 (b + 1)) (pow2_pos (b + 1))).
    rewrite <- pow2_add. replace (a - b - 1 + (b + 1)) with a by lia.
    eapply Qle_trans; [exact Hnl|]. rewrite <- Hnd.
    apply Qmult_le_compat_l'; assumption.
Qed.

Lemma ilog2_le x y : (0 < x)%Q -> (x <= y)%Q -> float64.ilog2 x <= float64.ilog2 y.
Proof.
  intros Hx Hxy.
  assert (0 < y)%Q as Hy by (eapply Qlt_le_trans; eassumption).
  destruct (ilog2_spec x Hx) as (Hxl & _).
  destruct (ilog2_spec y Hy) as (_ & Hyu).
  destruct (Z.le_gt_cases (float64.ilog2 x) (float64.ilog2 y)) as [H|H]; [exact H|exfalso].
  assert (float64.pow2 (float64.ilog2 y + 1) <= float64.pow2 (float64.ilog2 x))%Q as Hp by (apply pow2_le; lia).
  apply (Qlt_irrefl y).
  eapply Qlt_le_trans; [exact Hyu|].
  eapply Qle_trans; [exact Hp|]. eapply Qle_trans; eassumption.
Qed.

#[local] Instance rne_comp : Proper (Qeq ==> eq) float64.rne.
Proof.
  intros q q' H. unfold float64.rne. cbv zeta.
  rewrite (Qfloor_comp _ _ H).
  assert ((q - inject_Z (Qfloor q') ?= 1 # 2)%Q
          = (q' - inject_Z (Qfloor q') ?= 1 # 2)%Q) as ->.
  { apply Qcompare_comp; [|reflexivity]. rewrite H. reflexivity. }
  reflexivity.
Qed.

Lemma rne_bounds q : Qfloor q <= float64.rne q <= Qfloor q + 1.
Proof.
  unfold float64.rne. destruct (q - inject_Z (Qfloor q) ?= 1 # 2)%Q;
    [destruct (Z.even (Qfloor q))|..]; lia.
Qed.

Lemma rne_Z k : float64.rne (inject_Z k) = k.
Proof.
  unfold float64.rne. cbv zeta. rewrite Qfloor_Z.
  assert (inject_Z k - inject_Z k == 0)%Q as E0 by ring.
  destruct (Qcompare_spec (inject_Z k - inject_Z k) (1 # 2)) as [E|L|G];
    [exfalso|reflexivity|exfalso].
  - rewrite E0 in E. discriminate.
  - rewrite E0 in G. discriminate.
Qed.

Lemma rne_le q1 q2 : (q1 <= q2)%Q -> float64.rne q1 <= float64.rne q2.
Proof.
  intros H. pose proof (Qfloor_resp_le _ _ H) as Hf.
  pose proof (rne_bounds q1) as B1. pose proof (rne_bounds q2) as B2.
  destruct (Z.eq_dec (Qfloor q1) (Qfloor q2)) as [Heq|Hne]; [|lia].
  unfold float64.rne. cbv zeta. rewrite <- Heq.
  assert (q1 - inject_Z (Qfloor q1) <= q2 - inject_Z (Qfloor q1))%Q as Hr.
  { apply Qplus_le_l. exact H. }
  destruct (Qcompare_spec (q1 - inject_Z (Qfloor q1)) (1 # 2)) as [E1|L1|G1];
    destruct (Qcompare_spec (q2 - inject_Z (Qfloor q1)) (1 # 2)) as [E2|L2|G2];
    try (destruct (Z.even (Qfloor q1))); try lia; exfalso;
    match goal with
    | E : (q1 - _ == 1 # 2)%Q, L : (q2 - _ < 1 # 2)%Q |- _ =>
        rewrite E in Hr; exact (Qlt_not_le _ _ L Hr)
    | E : (q2 - _ == 1 # 2)%Q, G : (1 # 2 < q1 - _)%Q |- _ =>
        rewrite E in Hr; exact (Qlt_not_le _ _ G Hr)
    | G : (1 # 2 < q1 - _)%Q, L : (q2 - _ < 1 # 2)%Q |- _ =>
        apply (Qlt_irrefl (1 # 2)); eapply Qlt_trans; [exact G|];
        eapply Qle_lt_trans; eassumption
    end.
Qed.

Lemma round_pos_nonneg x : (0 < x)%Q -> (0 <= float64.round_pos x)%Q.
Proof.
  intros Hx. unfold float64.round_pos. cbv zeta.
  set (e := Z.max (float64.ilog2 x - 52) (-1074)).
  apply Qmult_le_0_compat; [|apply Qlt_le_weak, pow2_pos].
  change 0%Q with (inject_Z 0). apply inject_Z_le.
  rewrite <- (rne_Z 0). apply rne_le.
  apply Qle_shift_div_l; [apply pow2_pos|].
  rewrite Qmult_0_l. apply Qlt_le_weak. exact Hx.
Qed.

Lemma round_pos_le x y : (0 < x)%Q -> (x <= y)%Q -> (float64.round_pos x <= float64.round_pos y)%Q.
Proof.
  intros Hx Hxy.
  assert (0 < y)%Q as Hy by (eapply Qlt_le_trans; eassumption).
  pose proof (ilog2_le x y Hx Hxy) as Hlog.
  destruct (ilog2_spec x Hx) as (_ & Hxu).
  destruct (ilog2_spec y Hy) as (Hyl & _).
  unfold float64.round_pos. cbv zeta.
  set (ex := Z.max (float64.ilog2 x - 52) (-1074)).
  set (ey := Z.max (float64.ilog2 y - 52) (-1074)).
  destruct (Z.eq_dec ex ey) as [Heq|Hne].
  - rewrite <- Heq. apply Qmult_le_compat_r; [|apply Qlt_le_weak, pow2_pos].
    apply inject_Z_le, rne_le.
    apply Qmult_le_compat_r; [exact Hxy|].
    apply Qinv_le_0_compat, Qlt_le_weak, pow2_pos.
  - assert (ex < ey) as Hlt by lia.
    assert (ey = float64.ilog2 y - 52) as Hey by lia.
    apply Qle_trans with (float64.pow2 (ex + 53)).
    + rewrite pow2_add, (Qmult_comm (float64.pow2 ex)).
      apply Qmult_le_compat_r; [|apply Qlt_le_weak, pow2_pos].
      rewrite (pow2_Z 53) by lia. apply inject_Z_le.
      rewrite <- (rne_Z (2 ^ 53)). apply rne_le.
      rewrite <- (pow2_Z 53) by lia.
      apply Qle_shift_div_r; [apply pow2_pos|].
      rewrite <- pow2_add. apply Qlt_le_weak.
      eapply Qlt_le_trans; [exact Hxu|]. apply pow2_le. lia.
    + apply Qle_trans with (float64.pow2 (52 + ey)); [apply pow2_le; lia|].
      rewrite pow2_add.
      apply Qmult_le_compat_r; [|apply Qlt_le_weak, pow2_pos].
      rewrite (pow2_Z 52) by lia. apply inject_Z_le.
      rewrite <- (rne_Z (2 ^ 52)). apply rne_le.
      rewrite <- (pow2_Z 52) by lia.
      apply Qle_shift_div_l; [apply pow2_pos|].
      rewrite <- pow2_add. eapply Qle_trans; [|exact Hyl].
      apply pow2_le. lia.
Qed.

(** ** Facts on the random source and on outcomes *)

Section monad_facts.

Context {A B : Type}.

Lemma bind_Return (c : rand.M A) (k : A -> rand.M B) s b s' :
  rand.bind c k s = Return (b, s') ->
  exists a s1, c s = Return (a, s1) /\ k a s1 = Return (b, s').
Proof.
  unfold rand.bind. destruct (c s) as [[a s1]|p]; [|discriminate].
  intros H. exists a, s1. auto.
Qed.

Lemma bind_eq (c : rand.M A) (k : A -> rand.M B) s a s1 :
  c s = Return (a, s1) -> rand.bind c k s = k a s1.
Proof. unfold rand.bind. intros ->. reflexivity. Qed.

Lemma bind_Panic (c : rand.M A) (k : A -> rand.M B) s p :
  c s = Panic p -> rand.bind c k s = Panic p.
Proof. unfold rand.bind. intros ->. reflexivity. Qed.

Lemma lift_Return (o : outcome A) s a s' :
  rand.lift o s = Return (a, s') -> o = Return a /\ s' = s.
Proof.
  unfold rand.lift. destruct o; [|discriminate].
  intros H. injection H as -> ->. auto.
Qed.

End monad_facts.

Lemma result_Some {A} (o : outcome (A * rand.Source)) a :
  rand.result o = Some a -> exists s', o = Return (a, s').
Proof.
  destruct o as [[x s']|p]; [|discriminate].
  intros H. injection H as ->. exists s'. reflexivity.
Qed.

Lemma skip_at n : forall s i, rand.skip n s i = s (n + i)%nat.
Proof.
  induction n as [|n IH]; intros s i; [reflexivity|].
  change (rand.skip (S n) s i) with (rand.skip n s (S i)).
  rewrite IH. f_equal. lia.
Qed.

Lemma head_skip n s : rand.head (rand.skip n s) = s n.
Proof. unfold rand.head. rewrite skip_at. f_equal. lia. Qed.

Lemma Intn_Return n s r s' :
  rand.Intn n s = Return (r, s') ->
  0 < n /\ 0 <= r < n /\ r = rand.head s mod n /\ s' = rand.tail s.
Proof.
  unfold rand.Intn. destruct (Z.leb_spec n 0) as [Hn|Hn]; [discriminate|].
  intros H. injection H as <- <-.
  pose proof (Z.mod_pos_bound (rand.head s) n Hn). auto.
Qed.

Lemma Intn_pos n s :
  0 < n -> rand.Intn n s = Return (rand.head s mod n, rand.tail s).
Proof.
  intros Hn. unfold rand.Intn.
  destruct (Z.leb_spec n 0); [lia|reflexivity].
Qed.

Lemma Intn_nonpos n s : n <= 0 -> rand.Intn n s = Panic PanicIntn.
Proof.
  intros Hn. unfold rand.Intn.
  destruct (Z.leb_spec n 0); [reflexivity|lia].
Qed.

Lemma index_Return {A} (l : list A) i a :
  index l i = Return a ->
  0 <= i < Z.of_nat (length l) /\ l !! Z.to_nat i = Some a.
Proof.
  unfold index.
  destruct (Z.ltb_spec i 0); [discriminate|].
  destruct (Z.leb_spec (Z.of_nat (length l)) i); [discriminate|]. simpl.
  destruct (l !! Z.to_nat i) eqn:E; [|discriminate].
  intros Hr. injection Hr as ->. split; [lia|reflexivity].
Qed.

Lemma min_spec a b : min a b = Z.min a b.
Proof. unfold min. destruct (Z.ltb_spec a b); lia. Qed.

Lemma Qltb_lt x y : Qltb x y = true <-> (x < y)%Q.
Proof.
  unfold Qltb. rewrite negb_true_iff.
  destruct (Qle_bool y x) eqn:E.
  - apply Qle_bool_iff in E. split; [discriminate|].
    intros H. exfalso. exact (Qlt_not_le _ _ H E).
  - split; [|reflexivity]. intros _.
    apply Qnot_le_lt. intros H. apply Qle_bool_iff in H. congruence.
Qed.

Lemma Qltb_ge x y : Qltb x y = false <-> (y <= x)%Q.
Proof.
  unfold Qltb. rewrite negb_false_iff. apply Qle_bool_iff.
Qed.

(** *** The draws of truth construction *)

Lemma randomDuration_eq s :
  exists d, randomDuration s = Return (d, rand.tail s) /\
            (d = ocmr.Acute \/ d = ocmr.Subacute \/ d = ocmr.Chronic).
Proof.
  unfold randomDuration. cbn [length]. 
  erewrite bind_eq by (apply Intn_pos; lia).
  change (Z.of_nat 4 - 1) with 3.
  pose proof (Z.mod_pos_bound (rand.head s) 3 ltac:(lia)) as Hr.
  assert (rand.head s mod 3 = 0 \/ rand.head s mod 3 = 1 \/ rand.head s mod 3 = 2)
    as [-> | [-> | ->]] by lia;
    cbn; eauto 6.
Qed.

Lemma randomSexBias_eq s :
  exists b, randomSexBias s = Return (b, rand.tail s) /\
            (b = MenOnly \/ b = FemaleOnly).
Proof.
  unfold randomSexBias. cbn [length].
  erewrite bind_eq by (apply Intn_pos; lia).
  change (Z.of_nat 3 - 1) with 2.
  pose proof (Z.mod_pos_bound (rand.head s) 2 ltac:(lia)) as Hr.
  assert (rand.head s mod 2 = 0 \/ rand.head s mod 2 = 1) as [-> | ->] by lia;
    cbn; eauto.
Qed.

(** [randomAge] never panics; it takes two draws, the first one choosing
    between the adult range and the tail of young ages. *)
Lemma randomAge_eq s :
  exists a, randomAge s = Return (a, rand.skip 2 s) /\
    (((1 # 100) < rand.float32 s)%Q -> 20 <= a < 100) /\
    ((rand.float32 s <= 1 # 100)%Q -> 0 <= a < 20).
Proof.
  unfold randomAge, rand.bind, rand.Float32.
  destruct (Qltb (1 # 100) (rand.float32 s)) eqn:E.
  - apply Qltb_lt in E. rewrite Intn_pos by lia.
    pose proof (Z.mod_pos_bound (rand.head (rand.tail s)) 80 ltac:(lia)).
    eexists. split; [reflexivity|]. split; [intros _; lia|].
    intros H'. exfalso. exact (Qlt_not_le _ _ E H').
  - apply Qltb_ge in E. rewrite Intn_pos by lia.
    pose proof (Z.mod_pos_bound (rand.head (rand.tail s)) 20 ltac:(lia)).
    eexists. split; [reflexivity|]. split; [|intros _; lia].
    intros H'. exfalso. exact (Qlt_not_le _ _ H' E).
Qed.

Ltac bind_inv H :=
  let a := fresh "a" in
  let s1 := fresh "s" in
  let H1 := fresh "Hstep" in
  apply bind_Return in H as (a & s1 & H1 & H).

Tactic Notation "bind_inv_as" hyp(H) simple_intropattern(a) simple_intropattern(s1) :=
  let H1 := fresh "Hstep" in
  apply bind_Return in H as (a & s1 & H1 & H).

Tactic Notation "bind_inv_in" hyp(H) "as" simple_intropattern(a)
    simple_intropattern(s1) simple_intropattern(H1) :=
  apply bind_Return in H as (a & s1 & H1 & H).

Lemma draw_problems_Return symptoms totalSymptoms k :
  forall s ps s',
    draw_problems symptoms totalSymptoms k s = Return (ps, s') ->
    length ps = k /\
    Forall (fun p =>
              (exists i, 0 <= i < totalSymptoms - 1 /\
                         symptoms !! Z.to_nat i = Some (Problem_ p)) /\
              (Duration p = ocmr.Acute \/ Duration p = ocmr.Subacute \/
               Duration p = ocmr.Chronic)) ps.
Proof.
  induction k as [|k IH]; intros s ps s' H; simpl in H.
  - injection H as <- <-. split; [reflexivity|constructor].
  - bind_inv H. apply Intn_Return in Hstep as (_ & Hi & _ & ->).
    bind_inv H. apply lift_Return in Hstep as (Hidx & ->).
    apply index_Return in Hidx as (_ & Hidx).
    bind_inv H.
    destruct (randomDuration_eq (rand.tail s)) as (d & Hd & Hd3).
    rewrite Hd in Hstep. injection Hstep as <- <-.
    bind_inv H. injection Hstep as <- <-.
    bind_inv H. apply IH in Hstep as (Hlen & Hall).
    injection H as <- <-. simpl. split; [congruence|].
    constructor; [|exact Hall]. simpl. split; [eauto|exact Hd3].
Qed.

Lemma draw_problems_total symptoms totalSymptoms k :
  totalSymptoms = Z.of_nat (length symptoms) -> 1 < totalSymptoms ->
  forall s, exists ps s', draw_problems symptoms totalSymptoms k s = Return (ps, s').
Proof.
  intros Htot Hgt. induction k as [|k IH]; intros s; simpl.
  - eexists _, _. reflexivity.
  - erewrite bind_eq by (apply Intn_pos; lia).
    pose proof (Z.mod_pos_bound (rand.head s) (totalSymptoms - 1) ltac:(lia)) as Hr.
    assert (exists c, index symptoms (rand.head s mod (totalSymptoms - 1)) = Return c)
      as (c & Hc).
    { unfold index.
      destruct (Z.ltb_spec (rand.head s mod (totalSymptoms - 1)) 0); [lia|].
      destruct (Z.leb_spec (Z.of_nat (length symptoms))
                  (rand.head s mod (totalSymptoms - 1))); [lia|]. simpl.
      destruct (symptoms !! Z.to_nat (rand.head s mod (totalSymptoms - 1))) eqn:E;
        [eauto|].
      apply lookup_ge_None in E. lia. }
    erewrite bind_eq by (unfold rand.lift; rewrite Hc; reflexivity).
    destruct (randomDuration_eq (rand.tail s)) as (d & Hd & _).
    erewrite bind_eq by exact Hd.
    erewrite bind_eq by reflexivity.
    destruct (IH (rand.tail (rand.tail (rand.tail s)))) as (ps & s' & Hps).
    erewrite bind_eq by exact Hps.
    eexists _, _. reflexivity.
Qed.

Lemma draw_problems_Intn0 symptoms totalSymptoms k s :
  totalSymptoms <= 1 ->
  draw_problems symptoms totalSymptoms (S k) s = Panic PanicIntn.
Proof.
  intros Hle. simpl. apply bind_Panic. apply Intn_nonpos. lia.
Qed.

(** *** generateTruth *)

Lemma generateTruth_Return db diag s r s' :
  generateTruth db diag s = Return (r, s') ->
  exists symptoms,
    relatedBySiteForDiagnosis db diag = Return (symptoms, None) /\
    ((symptoms = [] /\ r = (None, false) /\ s' = s) \/
     (exists t,
        r = (Some t, true) /\
        symptoms <> [] /\
        snd (GetAllParents db diag) = None /\
        Diagnosis t = diag /\
        Parents t = fst (GetAllParents db diag) /\
        1 <= Z.of_nat (length (Problems t)) <= Z.min 30 (Z.of_nat (length symptoms)) /\
        Forall (fun p =>
                  (exists i, 0 <= i < Z.of_nat (length symptoms) - 1 /\
                             symptoms !! Z.to_nat i = Some (Problem_ p)) /\
                  (Duration p = ocmr.Acute \/ Duration p = ocmr.Subacute \/
                   Duration p = ocmr.Chronic)) (Problems t) /\
        (SexBias_ t = MenOnly \/ SexBias_ t = FemaleOnly) /\
        0 <= MeanAge t < 100 /\
        0 <= StdDevAge t < Z.min (MeanAge t) 20)).
Proof.
  unfold generateTruth. intros H.
  bind_inv H. apply lift_Return in Hstep as (Hrel & ->).
  destruct a as [symptoms err].
  bind_inv H. apply lift_Return in Hstep as (Herr & ->).
  destruct err as [e|]; [discriminate|]. clear Herr a.
  exists symptoms. split; [exact Hrel|].
  destruct (Z.ltb_spec 0 (Z.of_nat (length symptoms))) as [Hpos|Hzero].
  - right.
    bind_inv H. apply Intn_Return in Hstep as (_ & Hk & _ & ->).
    rewrite min_spec in Hk.
    destruct (GetAllParents db diag) as [parents perr] eqn:Hpar.
    bind_inv H. apply lift_Return in Hstep as (Herr & ->).
    destruct perr as [e|]; [discriminate|]. clear Herr.
    bind_inv_as H ps sp. apply draw_problems_Return in Hstep as (Hlen & Hall).
    bind_inv_as H age' sa.
    destruct (randomAge_eq sp) as (age & Hage & Hadult & Hyoung).
    rewrite Hage in Hstep. injection Hstep as <- Hsa.
    bind_inv_as H b' sb.
    destruct (randomSexBias_eq sa) as (b & Hb & Hb2).
    rewrite Hb in Hstep. injection Hstep as <- <-.
    bind_inv_as H sd ss. apply Intn_Return in Hstep as (_ & Hsd & _ & ->).
    rewrite min_spec in Hsd.
    injection H as <- <-.
    eexists. split; [reflexivity|]. simpl.
    split; [intros ->; simpl in Hpos; lia|].
    assert (0 <= age < 100) as Hrange.
    { destruct (Qlt_le_dec (1 # 100) (rand.float32 sp)) as [Hq|Hq];
        [apply Hadult in Hq | apply Hyoung in Hq]; lia. }
    repeat split; try assumption; lia.
  - left. injection H as <- <-.
    destruct symptoms; [auto|simpl in Hzero; lia].
Qed.

Lemma generateTruth_empty db diag s :
  relatedBySiteForDiagnosis db diag = Return ([], None) ->
  generateTruth db diag s = Return ((None, false), s).
Proof.
  intros Hrel. unfold generateTruth, rand.bind, rand.lift. rewrite Hrel. reflexivity.
Qed.

Lemma generateTruth_discovery_error db diag s symptoms e :
  relatedBySiteForDiagnosis db diag = Return (symptoms, Some e) ->
  generateTruth db diag s = Panic (PanicError e).
Proof.
  intros Hrel. unfold generateTruth, rand.bind, rand.lift. rewrite Hrel. reflexivity.
Qed.

Lemma generateTruth_parents_error db diag s symptoms e :
  relatedBySiteForDiagnosis db diag = Return (symptoms, None) ->
  symptoms <> [] ->
  snd (GetAllParents db diag) = Some e ->
  generateTruth db diag s = Panic (PanicError e).
Proof.
  intros Hrel Hne Hpar. unfold generateTruth, rand.bind at 1 2, rand.lift at 1 2.
  rewrite Hrel. simpl.
  destruct (Z.ltb_spec 0 (Z.of_nat (length symptoms))) as [Hpos|Hzero].
  - rewrite min_spec. erewrite bind_eq by (apply Intn_pos; lia).
    destruct (GetAllParents db diag) as [parents perr]. simpl in Hpar. subst perr.
    reflexivity.
  - destruct symptoms; [congruence|simpl in Hzero; lia].
Qed.

(** With a single candidate the first symptom draw is [rand.Intn(0)]. *)
Lemma generateTruth_single db diag s c :
  relatedBySiteForDiagnosis db diag = Return ([c], None) ->
  snd (GetAllParents db diag) = None ->
  generateTruth db diag s = Panic PanicIntn.
Proof.
  intros Hrel Hpar. unfold generateTruth, rand.bind at 1 2, rand.lift at 1 2.
  rewrite Hrel. simpl.
  erewrite bind_eq by (apply Intn_pos; reflexivity).
  destruct (GetAllParents db diag) as [parents perr]. simpl in Hpar. subst perr.
  erewrite bind_eq by reflexivity.
  apply bind_Panic.
  change (min 30 1) with 1. rewrite Z.mod_1_r. simpl.
  apply bind_Panic. reflexivity.
Qed.

(** With two candidates or more and the ancestors at hand, a truth is
    returned unless a draw of [rand.Intn] panics. *)
Lemma generateTruth_progress db diag s symptoms :
  relatedBySiteForDiagnosis db diag = Return (symptoms, None) ->
  (2 <= length symptoms)%nat ->
  snd (GetAllParents db diag) = None ->
  (exists t s', generateTruth db diag s = Return ((Some t, true), s')) \/
  generateTruth db diag s = Panic PanicIntn.
Proof.
  intros Hrel Hlen Hpar.
  remember (generateTruth db diag s) as g eqn:Hg.
  unfold generateTruth, rand.bind at 1 2, rand.lift at 1 2 in Hg.
  rewrite Hrel in Hg. simpl in Hg.
  destruct (Z.ltb_spec 0 (Z.of_nat (length symptoms))) as [Hpos|Hzero]; [|lia].
  rewrite min_spec in Hg. erewrite bind_eq in Hg by (apply Intn_pos; lia).
  destruct (GetAllParents db diag) as [parents perr]. simpl in Hpar. subst perr.
  erewrite bind_eq in Hg by reflexivity.
  destruct (draw_problems_total symptoms (Z.of_nat (length symptoms))
              (Z.to_nat (1 + rand.head s mod Z.min 30 (Z.of_nat (length symptoms))))
              eq_refl ltac:(lia) (rand.tail s)) as (ps & s1 & Hps).
  erewrite bind_eq in Hg by exact Hps.
  destruct (randomAge_eq s1) as (age & Hage & _).
  erewrite bind_eq in Hg by exact Hage.
  destruct (randomSexBias_eq (rand.skip 2 s1)) as (b & Hb & _).
  erewrite (bind_eq randomSexBias) in Hg by exact Hb.
  destruct (Z.leb_spec (min age 20) 0) as [Hsd|Hsd].
  - right. rewrite Hg. apply bind_Panic. apply Intn_nonpos. exact Hsd.
  - left. erewrite bind_eq in Hg by (apply Intn_pos; lia).
    rewrite Hg. eexists _, _. reflexivity.
Qed.

(** *** relatedBySiteForDiagnosis *)

Lemma add_symptoms_withChildrenErrors dbs errs symptoms :
  forall m, add_symptoms (withChildrenErrors dbs errs) symptoms m
            = add_symptoms dbs symptoms m.
Proof.
  induction symptoms as [|[c|] rest IH]; intros m; simpl; [reflexivity| |reflexivity].
  apply IH.
Qed.

Lemma scan_children_withChildrenErrors dbs errs children :
  forall m, scan_children (withChildrenErrors dbs errs) children m
            = scan_children dbs children m.
Proof.
  induction children as [|child rest IH]; intros m; simpl; [reflexivity|].
  destruct (GetChildrenOfKind dbs child FindingSite) as [symptoms [e|]];
    [reflexivity|].
  rewrite add_symptoms_withChildrenErrors.
  destruct (add_symptoms dbs symptoms m); [apply IH|reflexivity].
Qed.

Lemma scan_sites_withChildrenErrors dbs errs sites :
  forall m, scan_sites (withChildrenErrors dbs errs) sites m
            = scan_sites dbs sites m.
Proof.
  induction sites as [|site rest IH]; intros m; simpl; [reflexivity|].
  rewrite scan_children_withChildrenErrors.
  destruct (FetchRecursiveChildren dbs site) as [children err]. simpl.
  destruct (scan_children dbs children m) as [[m'|e]|p]; auto.
Qed.

Lemma genericSitesOf_withChildrenErrors dbs errs sites :
  genericSitesOf (withChildrenErrors dbs errs) sites = genericSitesOf dbs sites.
Proof.
  unfold genericSitesOf. simpl.
  destruct (FetchConcept dbs 51185008) as [thoracic err].
  destruct (GetSiblings dbs thoracic) as [structures err'].
  generalize (SliceToMap dbs (structures ++ [thoracic])) as structures2.
  generalize (@nil ConceptPtr) as acc.
  induction sites as [|site rest IH]; intros acc structures2; simpl; [reflexivity|].
  destruct (Genericise dbs site structures2) as [g ok]. apply IH.
Qed.

(** The loop over the children of a site: it goes on only if no query
    failed, and it leaves with the error of a query that failed. *)
Lemma scan_children_spec dbs children :
  forall m,
    match scan_children dbs children m with
    | Return (Next _) =>
        forall child, child ∈ children ->
                      snd (GetChildrenOfKind dbs child FindingSite) = None
    | Return (ReturnErr e) =>
        exists child, child ∈ children /\
                      snd (GetChildrenOfKind dbs child FindingSite) = Some e
    | Panic _ => True
    end.
Proof.
  induction children as [|child rest IH]; intros m; simpl.
  - intros child Hin. inversion Hin.
  - destruct (GetChildrenOfKind dbs child FindingSite) as [symptoms [e|]] eqn:Hq.
    + exists child. split; [left|rewrite Hq; reflexivity].
    + destruct (add_symptoms dbs symptoms m) as [m'|p]; [|exact I].
      specialize (IH m').
      destruct (scan_children dbs rest m') as [[m''|e]|p]; [| |exact I].
      * intros child' Hin. apply elem_of_cons in Hin as [->|Hin];
          [rewrite Hq; reflexivity|auto].
      * destruct IH as (child' & Hin & He). exists child'. split; [right|]; auto.
Qed.

Lemma scan_sites_spec dbs sites :
  forall m,
    match scan_sites dbs sites m with
    | Return (Next _) =>
        forall child,
          child ∈ sites ≫= (fun site => fst (FetchRecursiveChildren dbs site)) ->
          snd (GetChildrenOfKind dbs child FindingSite) = None
    | Return (ReturnErr e) =>
        exists child,
          child ∈ sites ≫= (fun site => fst (FetchRecursiveChildren dbs site)) /\
          snd (GetChildrenOfKind dbs child FindingSite) = Some e
    | Panic _ => True
    end.
Proof.
  induction sites as [|site rest IH]; intros m; simpl.
  - intros child Hin. inversion Hin.
  - destruct (FetchRecursiveChildren dbs site) as [children err]. simpl.
    pose proof (scan_children_spec dbs children m) as Hc.
    destruct (scan_children dbs children m) as [[m'|e]|p]; [| |exact I].
    + specialize (IH m').
      destruct (scan_sites dbs rest m') as [[m''|e]|p]; [| |exact I].
      * intros child Hin. apply elem_of_app in Hin as [Hin|Hin]; auto.
      * destruct IH as (child & Hin & He). exists child.
        split; [apply elem_of_app; right|]; auto.
    + destruct Hc as (child & Hin & He). exists child.
      split; [apply elem_of_app; left|]; auto.
Qed.

(** C1 (amended): relatedBySiteForDiagnosis returns to its caller, with no
    candidate set, the error of its finding-site queries: the one of
    GetParentsOfKind on the diagnosis, and the one of a GetChildrenOfKind
    query on a recursive child of a generic site.  It returns a candidate
    set only if none of these queries failed.  The error of
    FetchRecursiveChildren is discarded: the result depends only on the
    children that query returned. *)
Theorem relatedBySite_error_propagation dbs concept :
  (forall e,
      snd (GetParentsOfKind dbs concept FindingSite) = Some e ->
      relatedBySiteForDiagnosis dbs concept = Return ([], Some e)) /\
  (forall symptoms,
      relatedBySiteForDiagnosis dbs concept = Return (symptoms, None) ->
      snd (GetParentsOfKind dbs concept FindingSite) = None /\
      forall child, child ∈ childQueries dbs concept ->
                    snd (GetChildrenOfKind dbs child FindingSite) = None) /\
  (forall symptoms e,
      relatedBySiteForDiagnosis dbs concept = Return (symptoms, Some e) ->
      symptoms = [] /\
      (snd (GetParentsOfKind dbs concept FindingSite) = Some e \/
       exists child, child ∈ childQueries dbs concept /\
                     snd (GetChildrenOfKind dbs child FindingSite) = Some e)) /\
  (forall errs,
      relatedBySiteForDiagnosis (withChildrenErrors dbs errs) concept
      = relatedBySiteForDiagnosis dbs concept).
Proof.
  unfold relatedBySiteForDiagnosis, childQueries.
  destruct (GetParentsOfKind dbs concept FindingSite) as [sites [e0|]] eqn:Hsites;
    simpl.
  - split; [|split; [|split]].
    + intros e He. congruence.
    + intros symptoms Hr. discriminate.
    + intros symptoms e Hr. inversion Hr. auto.
    + intros errs. rewrite Hsites. reflexivity.
  - pose proof (scan_sites_spec dbs (genericSitesOf dbs sites) ∅) as Hs.
    split; [|split; [|split]].
    + intros e He. discriminate.
    + intros symptoms Hr. split; [reflexivity|].
      destruct (scan_sites dbs (genericSitesOf dbs sites) ∅) as [[m|e]|p];
        [exact Hs|discriminate..].
    + intros symptoms e Hr.
      destruct (scan_sites dbs (genericSitesOf dbs sites) ∅) as [[m|e']|p];
        [discriminate| |discriminate].
      inversion Hr. subst e'. auto.
    + intros errs. rewrite Hsites.
      rewrite genericSitesOf_withChildrenErrors, scan_sites_withChildrenErrors.
      reflexivity.
Qed.

(** C1, on an example: a gateway whose finding-site queries fail below the
    generic sites gives the error and no candidate. *)
Lemma relatedBySite_error_propagation_witness :
  relatedBySiteForDiagnosis Examples.brokenGateway Examples.diagnosis1
    = Return ([], Some "relation table unavailable"%string) /\
  [] = @nil ConceptPtr /\
  (snd (GetParentsOfKind Examples.brokenGateway Examples.diagnosis1 FindingSite)
     = Some "relation table unavailable"%string \/
   exists child,
     child ∈ childQueries Examples.brokenGateway Examples.diagnosis1 /\
     snd (GetChildrenOfKind Examples.brokenGateway child FindingSite)
       = Some "relation table unavailable"%string).
Proof.
  split; [vm_compute; reflexivity|].
  apply (proj1 (proj2 (proj2 (relatedBySite_error_propagation
                                Examples.brokenGateway Examples.diagnosis1)))).
  vm_compute; reflexivity.
Defined.

(** C1 as stated fails: the descendants of the generic site 2 cannot be
    fetched, the call suppresses that error and returns the candidates of
    the other site. *)
Lemma relatedBySite_suppresses_error :
  Examples.concept 2
    ∈ genericSitesOf Examples.flakyGateway
        (fst (GetParentsOfKind Examples.flakyGateway Examples.diagnosis1 FindingSite)) /\
  FetchRecursiveChildren Examples.flakyGateway (Examples.concept 2)
    = ([], Some "descendants unavailable"%string) /\
  relatedBySiteForDiagnosis Examples.flakyGateway Examples.diagnosis1
    = Return ([Examples.concept 31], None) /\
  ~ (exists symptoms e,
        relatedBySiteForDiagnosis Examples.flakyGateway Examples.diagnosis1
        = Return (symptoms, Some e)).
Proof.
  split; [|split; [|split]].
  - vm_compute. apply list_elem_of_here.
  - reflexivity.
  - vm_compute; reflexivity.
  - intros (symptoms & e & H). vm_compute in H. discriminate.
Qed.

(** C2: generateTruth does not return for every diagnosis with
    candidates.  With exactly one candidate the symptom draw is
    [rand.Intn(0)], which panics whatever the random source; with two
    candidates and a drawn mean age of 0 the draw of the standard
    deviation is [rand.Intn(0)]. *)
Theorem generateTruth_panics_on_Intn0 :
  (relatedBySiteForDiagnosis (Examples.gateway [Examples.concept 10] None)
     Examples.diagnosis1 = Return ([Examples.concept 10], None) /\
   forall s, generateTruth (Examples.gateway [Examples.concept 10] None)
               Examples.diagnosis1 s = Panic PanicIntn) /\
  (randomAge Examples.zeros = Return (0, rand.skip 2 Examples.zeros) /\
   generateTruth (Examples.gateway [Examples.concept 10; Examples.concept 11] None)
     Examples.diagnosis1 Examples.zeros = Panic PanicIntn).
Proof.
  split; split.
  - vm_compute; reflexivity.
  - intros s. eapply generateTruth_single; vm_compute; reflexivity.
  - reflexivity.
  - vm_compute; reflexivity.
Qed.

(** C3: every uniform draw of truth construction leaves out its last
    option.  randomDuration returns acute, subacute or chronic, never
    episodic or unknown; randomSexBias returns men-only or female-only,
    never no-bias; and in a truth that generateTruth returns, every problem
    is the candidate at an index other than the last one, its duration is
    none of episodic and unknown, and the sex bias is not no-bias. *)
Theorem draws_exclude_last_option :
  (forall s, exists d,
      randomDuration s = Return (d, rand.tail s) /\
      d <> ocmr.Episodic /\ d <> ocmr.Unknown) /\
  (forall s, exists b,
      randomSexBias s = Return (b, rand.tail s) /\ b <> NoSexBias) /\
  (forall db diag s t found s',
      generateTruth db diag s = Return ((Some t, found), s') ->
      exists symptoms,
        relatedBySiteForDiagnosis db diag = Return (symptoms, None) /\
        Forall (fun p =>
                  (exists i, 0 <= i < Z.of_nat (length symptoms) - 1 /\
                             symptoms !! Z.to_nat i = Some (Problem_ p)) /\
                  Duration p <> ocmr.Episodic /\ Duration p <> ocmr.Unknown)
               (Problems t) /\
        SexBias_ t <> NoSexBias).
Proof.
  split; [|split].
  - intros s. destruct (randomDuration_eq s) as (d & Hd & [->|[->| ->]]);
      eexists; (split; [eassumption|split; discriminate]).
  - intros s. destruct (randomSexBias_eq s) as (b & Hb & [->| ->]);
      eexists; (split; [eassumption|discriminate]).
  - intros db diag s t found s' H.
    apply generateTruth_Return in H as (symptoms & Hrel & [(_ & Hr & _)|Hsome]);
      [discriminate|].
    destruct Hsome as (t' & Hr & _ & _ & _ & _ & _ & Hall & Hsb & _).
    injection Hr as <- _.
    exists symptoms. split; [exact Hrel|]. split.
    + eapply Forall_impl; [exact Hall|]. simpl.
      intros p (Hi & Hd). split; [exact Hi|].
      destruct Hd as [->|[->| ->]]; split; discriminate.
    + destruct Hsb as [->| ->]; discriminate.
Qed.

Lemma draws_exclude_last_option_witness :
  exists t s' symptoms,
    generateTruth
      (Examples.gateway [Examples.concept 10; Examples.concept 11; Examples.concept 12] None)
      Examples.diagnosis1 Examples.rising = Return ((Some t, true), s') /\
    relatedBySiteForDiagnosis
      (Examples.gateway [Examples.concept 10; Examples.concept 11; Examples.concept 12] None)
      Examples.diagnosis1 = Return (symptoms, None) /\
    Forall (fun p =>
              (exists i, 0 <= i < Z.of_nat (length symptoms) - 1 /\
                         symptoms !! Z.to_nat i = Some (Problem_ p)) /\
              Duration p <> ocmr.Episodic /\ Duration p <> ocmr.Unknown)
           (Problems t) /\
    SexBias_ t <> NoSexBias.
Proof.
  assert (exists t s',
             generateTruth
               (Examples.gateway
                  [Examples.concept 10; Examples.concept 11; Examples.concept 12] None)
               Examples.diagnosis1 Examples.rising = Return ((Some t, true), s'))
    as (t & s' & Hrun).
  { eexists. apply result_Some. vm_compute. reflexivity. }
  destruct (proj2 (proj2 draws_exclude_last_option) _ _ _ _ _ _ Hrun)
    as (symptoms & Hrel & Hall & Hsb).
  exists t, s', symptoms. auto.
Defined.

(** C4 (amended): generateTruth panics with the error when discovery or
    the ancestors query fails.  When discovery succeeds with zero
    candidates it returns found=false and no Truth, and it returns
    found=false in no other case.  Whenever it returns found=true, the
    problems of the Truth number k with 1 <= k <= min(30, |candidates|);
    with two candidates or more and the ancestors at hand this is the
    outcome of every call in which no draw of rand.Intn panics. *)
Theorem generateTruth_found db diag s :
  (forall symptoms e,
      relatedBySiteForDiagnosis db diag = Return (symptoms, Some e) ->
      generateTruth db diag s = Panic (PanicError e)) /\
  (forall symptoms e,
      relatedBySiteForDiagnosis db diag = Return (symptoms, None) ->
      symptoms <> [] ->
      snd (GetAllParents db diag) = Some e ->
      generateTruth db diag s = Panic (PanicError e)) /\
  (relatedBySiteForDiagnosis db diag = Return ([], None) ->
   generateTruth db diag s = Return ((None, false), s)) /\
  (forall r s',
      generateTruth db diag s = Return (r, s') ->
      exists symptoms,
        relatedBySiteForDiagnosis db diag = Return (symptoms, None) /\
        ((symptoms = [] /\ r = (None, false)) \/
         (symptoms <> [] /\
          exists t, r = (Some t, true) /\
                    1 <= Z.of_nat (length (Problems t))
                      <= Z.min 30 (Z.of_nat (length symptoms))))) /\
  (forall symptoms,
      relatedBySiteForDiagnosis db diag = Return (symptoms, None) ->
      (2 <= length symptoms)%nat ->
      snd (GetAllParents db diag) = None ->
      (exists t s', generateTruth db diag s = Return ((Some t, true), s')) \/
      generateTruth db diag s = Panic PanicIntn).
Proof.
  split; [|split; [|split; [|split]]].
  - intros symptoms e. apply generateTruth_discovery_error.
  - intros symptoms e. apply generateTruth_parents_error.
  - apply generateTruth_empty.
  - intros r s' H.
    apply generateTruth_Return in H as (symptoms & Hrel & [(-> & -> & _)|Hsome]).
    + exists []. auto.
    + destruct Hsome as (t & -> & Hne & _ & _ & _ & Hk & _).
      exists symptoms. split; [exact Hrel|]. right. eauto.
  - intros symptoms. apply generateTruth_progress.
Qed.

Lemma generateTruth_found_witness :
  exists symptoms t s',
    relatedBySiteForDiagnosis
      (Examples.gateway [Examples.concept 10; Examples.concept 11; Examples.concept 12] None)
      Examples.diagnosis1 = Return (symptoms, None) /\
    length symptoms = 3%nat /\
    generateTruth
      (Examples.gateway [Examples.concept 10; Examples.concept 11; Examples.concept 12] None)
      Examples.diagnosis1 Examples.rising = Return ((Some t, true), s') /\
    1 <= Z.of_nat (length (Problems t)) <= Z.min 30 (Z.of_nat (length symptoms)).
Proof.
  assert (exists r s',
             generateTruth
               (Examples.gateway
                  [Examples.concept 10; Examples.concept 11; Examples.concept 12] None)
               Examples.diagnosis1 Examples.rising = Return (r, s') /\
             exists t0, r = (Some t0, true))
    as (r & s' & Hrun & t0 & Hr).
  { assert (exists t0, rand.result
                         (generateTruth
                            (Examples.gateway
                               [Examples.concept 10; Examples.concept 11;
                                Examples.concept 12] None)
                            Examples.diagnosis1 Examples.rising)
                       = Some (Some t0, true)) as (t0 & Hres).
    { eexists. vm_compute. reflexivity. }
    apply result_Some in Hres as (s' & Hres). eauto 6. }
  destruct (proj1 (proj2 (proj2 (proj2 (generateTruth_found _ _ _)))) r s' Hrun)
    as (symptoms & Hrel & [(_ & Hnone)|(Hne & t & Ht & Hk)]).
  - exfalso. rewrite Hr in Hnone. discriminate.
  - exists symptoms, t, s'. split; [exact Hrel|].
    split; [|split; [rewrite Hrun, Ht; reflexivity|exact Hk]].
    assert (exists l,
               relatedBySiteForDiagnosis
                 (Examples.gateway
                    [Examples.concept 10; Examples.concept 11; Examples.concept 12] None)
                 Examples.diagnosis1 = Return (l, None) /\
               length l = 3%nat) as (l & Hc & Hl).
    { eexists. split; vm_compute; reflexivity. }
    rewrite Hc in Hrel. injection Hrel as <-. exact Hl.
Defined.

(** C4 as stated fails: discovery yields two candidates, the ancestors of
    the diagnosis cannot be fetched, and generateTruth panics instead of
    returning found=true. *)
Lemma generateTruth_panics_with_candidates :
  relatedBySiteForDiagnosis
    (Examples.gateway [Examples.concept 10; Examples.concept 11]
       (Some "ancestors unavailable"%string))
    Examples.diagnosis1
  = Return ([Examples.concept 11; Examples.concept 10], None) /\
  forall s,
    generateTruth
      (Examples.gateway [Examples.concept 10; Examples.concept 11]
         (Some "ancestors unavailable"%string))
      Examples.diagnosis1 s
    = Panic (PanicError "ancestors unavailable") /\
    ~ (exists t s',
          generateTruth
            (Examples.gateway [Examples.concept 10; Examples.concept 11]
               (Some "ancestors unavailable"%string))
            Examples.diagnosis1 s
          = Return ((Some t, true), s')).
Proof.
  split; [vm_compute; reflexivity|].
  intros s.
  assert (generateTruth
            (Examples.gateway [Examples.concept 10; Examples.concept 11]
               (Some "ancestors unavailable"%string))
            Examples.diagnosis1 s
          = Panic (PanicError "ancestors unavailable")) as Hp.
  { eapply generateTruth_parents_error;
      [vm_compute; reflexivity|discriminate|reflexivity]. }
  split; [exact Hp|].
  intros (t & s' & H). rewrite Hp in H. discriminate.
Qed.

(** *** Explicit truths *)

Lemma toFakeProblem_spec db ep :
  toFakeProblem db ep =
  match snd (FetchConcept db (conceptID ep)) with
  | Some e => (None, Some e)
  | None => (Some (mkProblem (fst (FetchConcept db (conceptID ep)))
                     (duration ep) (probability ep)), None)
  end.
Proof.
  unfold toFakeProblem. destruct (FetchConcept db (conceptID ep)) as [c [e|]];
    reflexivity.
Qed.

Lemma to_fake_problems_spec db eps :
  forall acc,
    match to_fake_problems db eps acc with
    | Next ps =>
        (forall ep, ep ∈ eps -> snd (FetchConcept db (conceptID ep)) = None) /\
        ps = acc ++ map (fun ep => mkProblem (fst (FetchConcept db (conceptID ep)))
                                     (duration ep) (probability ep)) eps
    | ReturnErr e =>
        exists ep, ep ∈ eps /\ snd (FetchConcept db (conceptID ep)) = Some e
    end.
Proof.
  induction eps as [|ep rest IH]; intros acc; simpl.
  - split; [intros ep Hin; inversion Hin|]. rewrite app_nil_r. reflexivity.
  - rewrite toFakeProblem_spec.
    destruct (snd (FetchConcept db (conceptID ep))) as [e|] eqn:He.
    + exists ep. split; [left|exact He].
    + specialize (IH (acc ++ [mkProblem (fst (FetchConcept db (conceptID ep)))
                                (duration ep) (probability ep)])).
      destruct (to_fake_problems db rest _) as [ps|e].
      * destruct IH as (Hok & ->). split.
        -- intros ep' Hin. apply elem_of_cons in Hin as [->|Hin]; auto.
        -- rewrite <- app_assoc. reflexivity.
      * destruct IH as (ep' & Hin & He'). exists ep'. split; [right|]; auto.
Qed.

(** What toFakeTruth returns: the truth with the literal's values when
    every lookup and the ancestors query succeed, and otherwise the error
    of the query that failed. *)
Lemma toFakeTruth_spec db et :
  match toFakeTruth db et with
  | (Some t, None) =>
      snd (FetchConcept db (diagnosis et)) = None /\
      (forall ep, ep ∈ problems et -> snd (FetchConcept db (conceptID ep)) = None) /\
      snd (GetAllParents db (fst (FetchConcept db (diagnosis et)))) = None /\
      t = mkTruth (fst (FetchConcept db (diagnosis et)))
            (fst (GetAllParents db (fst (FetchConcept db (diagnosis et)))))
            (map (fun ep => mkProblem (fst (FetchConcept db (conceptID ep)))
                              (duration ep) (probability ep)) (problems et))
            NoSexBias (meanAge et) (stdDevAge et)
  | (None, Some e) =>
      snd (FetchConcept db (diagnosis et)) = Some e \/
      (exists ep, ep ∈ problems et /\ snd (FetchConcept db (conceptID ep)) = Some e) \/
      (snd (FetchConcept db (diagnosis et)) = None /\
       (forall ep, ep ∈ problems et -> snd (FetchConcept db (conceptID ep)) = None) /\
       snd (GetAllParents db (fst (FetchConcept db (diagnosis et)))) = Some e)
  | _ => False
  end.
Proof.
  unfold toFakeTruth.
  destruct (FetchConcept db (diagnosis et)) as [d [e|]]; simpl; [auto|].
  pose proof (to_fake_problems_spec db (problems et) []) as Hp.
  destruct (to_fake_problems db (problems et) []) as [ps|e]; [|auto].
  destruct Hp as (Hok & ->).
  destruct (GetAllParents db d) as [parents [e|]]; simpl; auto 6.
Qed.

(** C6 (amended): a Truth that generateTruth returns has
    stdDevAge < min(meanAge, 20).  The explicit loader copies meanAge and
    stdDevAge from the literal without capping them, so the bound holds
    for a loaded Truth exactly when the literal has it; the literal of
    myocardial infarction has it, with stdDevAge = 20 = min(60, 20). *)
Theorem stdDevAge_cap :
  (forall db diag s t found s',
      generateTruth db diag s = Return ((Some t, found), s') ->
      StdDevAge t < Z.min (MeanAge t) 20 /\ StdDevAge t <= Z.min (MeanAge t) 20) /\
  (forall db et t err,
      toFakeTruth db et = (Some t, err) ->
      MeanAge t = meanAge et /\ StdDevAge t = stdDevAge et /\
      (StdDevAge t <= Z.min (MeanAge t) 20 <->
       stdDevAge et <= Z.min (meanAge et) 20)) /\
  (forall db t err,
      MyocardialInfarctionTruth db = (Some t, err) ->
      StdDevAge t = 20 /\ MeanAge t = 60 /\ StdDevAge t <= Z.min (MeanAge t) 20).
Proof.
  assert (forall db et t err,
             toFakeTruth db et = (Some t, err) ->
             MeanAge t = meanAge et /\ StdDevAge t = stdDevAge et) as Hcopy.
  { intros db et t err H. pose proof (toFakeTruth_spec db et) as Hs.
    rewrite H in Hs. destruct err as [e|]; [contradiction|].
    destruct Hs as (_ & _ & _ & ->). auto. }
  split; [|split].
  - intros db diag s t found s' H.
    apply generateTruth_Return in H as (symptoms & _ & [(_ & Hr & _)|Hsome]);
      [discriminate|].
    destruct Hsome as (t' & Hr & _ & _ & _ & _ & _ & _ & _ & _ & Hsd).
    injection Hr as <- _. lia.
  - intros db et t err H. destruct (Hcopy db et t err H) as (-> & ->).
    repeat split; auto.
  - intros db t err H. destruct (Hcopy db _ t err H) as (-> & ->).
    simpl. lia.
Qed.

Lemma stdDevAge_cap_witness :
  exists t,
    MyocardialInfarctionTruth (Examples.gateway [] None) = (Some t, None) /\
    StdDevAge t = 20 /\ MeanAge t = 60 /\ StdDevAge t <= Z.min (MeanAge t) 20.
Proof.
  assert (exists t, MyocardialInfarctionTruth (Examples.gateway [] None)
                    = (Some t, None)) as (t & Hrun).
  { eexists. vm_compute. reflexivity. }
  exists t. split; [exact Hrun|].
  exact (proj2 (proj2 stdDevAge_cap) _ _ _ Hrun).
Defined.

(** C6 as stated fails: the explicit loader turns a literal with mean age
    10 and standard deviation 50 into a Truth with these values. *)
Lemma toFakeTruth_keeps_wide_stdDevAge :
  exists t,
    toFakeTruth (Examples.gateway [] None) Examples.wideTruth = (Some t, None) /\
    MeanAge t = 10 /\ StdDevAge t = 50 /\
    ~ StdDevAge t <= Z.min (MeanAge t) 20.
Proof.
  eexists. split; [vm_compute; reflexivity|].
  simpl. repeat split. lia.
Qed.




(** *** Sampling a truth *)

Lemma float64_skip k s : rand.float64 (rand.skip k s) = draw64 s k.
Proof. unfold rand.float64, draw64. rewrite head_skip. reflexivity. Qed.

Lemma kept_cons p rest s k :
  kept (p :: rest) s k =
  if Qltb (draw64 s k) (Probability p) then (k, p) :: kept rest s (S k)
  else kept rest s (S k).
Proof. reflexivity. Qed.

Lemma kept_spec problems s :
  forall from i p,
    (i, p) ∈ kept problems s from <->
    (from <= i)%nat /\ problems !! (i - from)%nat = Some p /\
    (draw64 s i < Probability p)%Q.
Proof.
  induction problems as [|q rest IH]; intros from i p.
  - split; [intros H; inversion H|intros (_ & H & _); discriminate].
  - rewrite kept_cons.
    assert ((i, p) ∈ kept rest s (S from) <->
            (from < i)%nat /\ (q :: rest) !! (i - from)%nat = Some p /\
            (draw64 s i < Probability p)%Q) as Hrest.
    { rewrite IH. split.
      - intros (Hle & Hl & Hd). split; [lia|]. split; [|exact Hd].
        replace (i - from)%nat with (S (i - S from)) by lia. exact Hl.
      - intros (Hlt & Hl & Hd). split; [lia|]. split; [|exact Hd].
        replace (i - from)%nat with (S (i - S from)) in Hl by lia. exact Hl. }
    destruct (Qltb (draw64 s from) (Probability q)) eqn:E.
    + rewrite elem_of_cons, Hrest. apply Qltb_lt in E. split.
      * intros [Heq|(Hlt & Hl & Hd)].
        -- injection Heq as -> ->. rewrite Nat.sub_diag. auto.
        -- split; [lia|auto].
      * intros (Hle & Hl & Hd).
        destruct (decide (i = from)) as [->|Hne].
        -- left. rewrite Nat.sub_diag in Hl. simpl in Hl. congruence.
        -- right. split; [lia|auto].
    + rewrite Hrest. apply Qltb_ge in E. split.
      * intros (Hlt & Hl & Hd). split; [lia|auto].
      * intros (Hle & Hl & Hd).
        destruct (decide (i = from)) as [->|Hne].
        -- rewrite Nat.sub_diag in Hl. simpl in Hl. injection Hl as ->.
           exfalso. exact (Qlt_not_le _ _ Hd E).
        -- split; [lia|auto].
Qed.

Lemma ToFinding_Return db p f :
  ToFinding db p = Return f ->
  f = findingOf db p /\ snd (GetAllParents db (Problem_ p)) = None.
Proof.
  unfold ToFinding, findingOf.
  destruct (GetAllParents db (Problem_ p)) as [parents [e|]]; simpl;
    [discriminate|].
  intros H. injection H as <-. auto.
Qed.

Lemma sample_findings_Return db problems s0 :
  forall k acc fs s',
    sample_findings db problems acc (rand.skip k s0) = Return (fs, s') ->
    fs = acc ++ map (findingOf db) (kept problems s0 k).*2 /\
    s' = rand.skip (length problems + k) s0.
Proof.
  induction problems as [|p rest IH]; intros k acc fs s' H; simpl in H.
  - injection H as <- <-. rewrite app_nil_r. auto.
  - bind_inv_as H u su. injection Hstep as <- <-.
    rewrite float64_skip in H. rewrite kept_cons.
    change (rand.tail (rand.skip k s0)) with (rand.skip (S k) s0) in H.
    destruct (Qltb (draw64 s0 k) (Probability p)).
    + bind_inv_as H f sf. apply lift_Return in Hstep as (Hf & ->).
      apply ToFinding_Return in Hf as (-> & _).
      apply IH in H as (-> & ->). split.
      * rewrite <- app_assoc. reflexivity.
      * f_equal. simpl. lia.
    + apply IH in H as (-> & ->). split; [reflexivity|].
      f_equal. simpl. lia.
Qed.

Lemma RandomSex_eq sb s :
  RandomSex sb s =
  match sb with
  | MenOnly => Return (ocmr.Male, s)
  | FemaleOnly => Return (ocmr.Female, s)
  | NoSexBias =>
      Return (if Qle_bool (1 # 2) (rand.float32 s) then ocmr.Male else ocmr.Female,
              rand.tail s)
  end.
Proof.
  destruct sb; try reflexivity.
  unfold RandomSex, rand.bind, rand.Float32.
  destruct (Qle_bool (1 # 2) (rand.float32 s)); reflexivity.
Qed.

Lemma clamp_max x : (if x <? 0 then 0 else x) = Z.max 0 x.
Proof. destruct (Z.ltb_spec x 0); lia. Qed.

(** What a record returned by ToQuestion holds, by the draws of the tape:
    problem [i] has draw [i]; the age model takes the next two draws, the
    normal draw the third one when the truth has an age distribution, and
    the sex the draw after these. *)
Lemma ToQuestion_Return db ft s r s' :
  ToQuestion db ft s = Return (r, s') ->
  let s1 := rand.skip (length (Problems ft)) s in
  let s2 := if hasAgeModel ft then rand.skip 3 s1 else rand.skip 2 s1 in
  ocmr.Findings r = map (findingOf db) (included (Problems ft) s) /\
  (exists age0,
      randomAge s1 = Return (age0, rand.skip 2 s1) /\
      ocmr.Age r =
        if hasAgeModel ft then
          Z.max 0 (float64.to_int
                     (float64.add
                        (float64.mul (rand.normFloat64 (rand.skip 2 s1))
                           (float64.of_int (StdDevAge ft)))
                        (float64.of_int (MeanAge ft))))
        else age0) /\
  (exists s3, RandomSex (SexBias_ ft) s2 = Return (ocmr.Sex_ r, s3)) /\
  ocmr.Answer r = Diagnosis ft /\
  ocmr.Parents r = fst (GetAllParents db (Diagnosis ft)) /\
  snd (GetAllParents db (Diagnosis ft)) = None.
Proof.
  unfold ToQuestion. intros H.
  bind_inv_in H as fs sf Hfs.
  apply (sample_findings_Return db (Problems ft) s 0 []) in Hfs as (-> & ->).
  rewrite Nat.add_0_r in H.
  bind_inv_in H as age0 sa Hage0.
  destruct (randomAge_eq (rand.skip (length (Problems ft)) s)) as (a & Ha & _).
  rewrite Ha in Hage0. injection Hage0 as <- <-.
  bind_inv_in H as age sg Hage.
  bind_inv_in H as sex sx Hsex.
  destruct (GetAllParents db (Diagnosis ft)) as [parents [e|]] eqn:Hpar.
  { bind_inv_in H as u su Hu. apply lift_Return in Hu as (He & _). discriminate. }
  bind_inv_in H as u su Hu. apply lift_Return in Hu as (_ & ->).
  injection H as <- <-. simpl.
  split; [reflexivity|].
  unfold hasAgeModel.
  destruct ((0 <? MeanAge ft) && (0 <? StdDevAge ft)).
  - bind_inv_in Hage as z sz Hz. injection Hz as <- <-.
    injection Hage as <- <-.
    split; [|split; [eauto|auto]].
    exists a. split; [exact Ha|]. apply clamp_max.
  - injection Hage as <- <-.
    split; [|split; [eauto|auto]].
    exists a. auto.
Qed.

Lemma age_step_total (b : bool) (g : Q -> Z) (a : Z) s :
  exists age sg,
    (if b then z <- rand.NormFloat64 ;; rand.ret (g z) else rand.ret a) s
    = Return (age, sg).
Proof. destruct b; eexists _, _; reflexivity. Qed.

Lemma sample_findings_total db problems :
  (forall c, snd (GetAllParents db c) = None) ->
  forall acc s, exists fs s', sample_findings db problems acc s = Return (fs, s').
Proof.
  intros Hok. induction problems as [|p rest IH]; intros acc s; simpl.
  - eexists _, _. reflexivity.
  - erewrite bind_eq by reflexivity.
    destruct (Qltb (rand.float64 s) (Probability p)); [|apply IH].
    assert (ToFinding db p = Return (findingOf db p)) as Hf.
    { unfold ToFinding, findingOf. specialize (Hok (Problem_ p)).
      destruct (GetAllParents db (Problem_ p)) as [parents err].
      simpl in Hok. subst err. reflexivity. }
    erewrite bind_eq by (unfold rand.lift; rewrite Hf; reflexivity).
    apply IH.
Qed.

(** When the ancestors queries succeed, ToQuestion returns a record. *)
Lemma ToQuestion_total db ft s :
  (forall c, snd (GetAllParents db c) = None) ->
  exists r s', ToQuestion db ft s = Return (r, s').
Proof.
  intros Hok. unfold ToQuestion.
  destruct (sample_findings_total db (Problems ft) Hok [] s) as (fs & s1 & Hfs).
  erewrite bind_eq by exact Hfs.
  destruct (randomAge_eq s1) as (a & Ha & _).
  erewrite bind_eq by exact Ha.
  destruct (age_step_total ((0 <? MeanAge ft) && (0 <? StdDevAge ft))
              (fun z =>
                 let age := float64.to_int
                              (float64.add
                                 (float64.mul z (float64.of_int (StdDevAge ft)))
                                 (float64.of_int (MeanAge ft))) in
                 if age <? 0 then 0 else age)
              a (rand.skip 2 s1)) as (age & sg & Hage).
  erewrite bind_eq by exact Hage.
  assert (exists sex sx, RandomSex (SexBias_ ft) sg = Return (sex, sx))
    as (sex & sx & Hsex).
  { rewrite RandomSex_eq. destruct (SexBias_ ft); eexists _, _; reflexivity. }
  erewrite bind_eq by exact Hsex.
  specialize (Hok (Diagnosis ft)).
  destruct (GetAllParents db (Diagnosis ft)) as [parents err].
  simpl in Hok. subst err.
  eexists _, _. reflexivity.
Qed.

Lemma draw64_range s i : (0 <= draw64 s i)%Q /\ (draw64 s i < 1)%Q.
Proof.
  unfold draw64, Qle, Qlt. cbn [Qnum Qden].
  change (Z.pos (2 ^ 53)) with (2 ^ 53).
  pose proof (Z.mod_pos_bound (s i) (2 ^ 53) ltac:(lia)). lia.
Qed.

Lemma float32_half s :
  Qle_bool (1 # 2) (rand.float32 s) = true <-> 2 ^ 23 <= rand.head s mod 2 ^ 24.
Proof.
  rewrite Qle_bool_iff. unfold rand.float32, Qle. cbn [Qnum Qden].
  change (Z.pos (2 ^ 24)) with (2 ^ 24).
  change (2 ^ 24) with (2 * 2 ^ 23) at 1. lia.
Qed.

(** C7: in a record that ToQuestion returns, the findings are those of the
    problems whose own uniform draw of [0, 1) is strictly less than their
    probability, in the order of the problems: problem i is kept if and
    only if draw i is less than its probability.  A problem with
    probability 0 is never included. *)
Theorem ToQuestion_includes_by_probability db ft s r s' :
  ToQuestion db ft s = Return (r, s') ->
  ocmr.Findings r = map (findingOf db) (included (Problems ft) s) /\
  (forall i p,
      (i, p) ∈ kept (Problems ft) s 0 <->
      Problems ft !! i = Some p /\ (draw64 s i < Probability p)%Q) /\
  (forall i, (0 <= draw64 s i)%Q /\ (draw64 s i < 1)%Q) /\
  (forall p, p ∈ included (Problems ft) s -> ~ (Probability p == 0)%Q) /\
  (forall f, f ∈ ocmr.Findings r ->
             exists p, p ∈ Problems ft /\ f = findingOf db p /\
                       (0 < Probability p)%Q).
Proof.
  intros H. apply ToQuestion_Return in H as (Hf & _).
  assert (forall i p,
             (i, p) ∈ kept (Problems ft) s 0 <->
             Problems ft !! i = Some p /\ (draw64 s i < Probability p)%Q) as Hkept.
  { intros i p. rewrite kept_spec, Nat.sub_0_r. split.
    - intros (_ & Hl & Hd). auto.
    - intros (Hl & Hd). split; [lia|auto]. }
  assert (forall p, p ∈ included (Problems ft) s ->
                    p ∈ Problems ft /\ (0 < Probability p)%Q) as Hincl.
  { intros p Hin. unfold included in Hin.
    apply list_elem_of_fmap in Hin as ([i q] & -> & Hin).
    apply Hkept in Hin as (Hl & Hd). simpl. split.
    - eapply list_elem_of_lookup_2. exact Hl.
    - eapply Qle_lt_trans; [apply (draw64_range s i)|exact Hd]. }
  split; [exact Hf|]. split; [exact Hkept|]. split; [apply draw64_range|].
  split.
  - intros p Hin Hzero. apply Hincl in Hin as (_ & Hpos).
    rewrite Hzero in Hpos. exact (Qlt_irrefl 0 Hpos).
  - intros f Hin. rewrite Hf in Hin.
    apply list_elem_of_fmap in Hin as (p & -> & Hin).
    exists p. destruct (Hincl p Hin). auto.
Qed.

Lemma ToQuestion_includes_by_probability_witness :
  exists r s',
    ToQuestion (Examples.gateway [] None)
      (Examples.sampleTruth NoSexBias 60 10) Examples.zeros = Return (r, s') /\
    ocmr.Findings r
      = [ocmr.mkClinicalFinding (Examples.concept 3) [] ocmr.Acute].
Proof.
  destruct (ToQuestion_total (Examples.gateway [] None)
              (Examples.sampleTruth NoSexBias 60 10) Examples.zeros
              ltac:(intros c; reflexivity)) as (r & s' & Hrun).
  exists r, s'. split; [exact Hrun|].
  rewrite (proj1 (ToQuestion_includes_by_probability _ _ _ _ _ Hrun)).
  vm_compute. reflexivity.
Defined.

(** C8: randomAge returns an integer of [20, 100) when its first draw is
    above 0.01 (the tail is not taken) and an integer of [0, 20)
    otherwise.  In a record that ToQuestion returns for a truth with
    meanAge > 0 and stdDevAge > 0, the age is int(z*stdDevAge + meanAge)
    for the normal draw z, in float64 arithmetic, replaced by 0 when
    negative, so it is never negative; for a truth with a parameter <= 0
    the age is the one that randomAge returned. *)
Theorem ToQuestion_age :
  (forall s, exists a,
      randomAge s = Return (a, rand.skip 2 s) /\
      (((1 # 100) < rand.float32 s)%Q -> 20 <= a < 100) /\
      ((rand.float32 s <= 1 # 100)%Q -> 0 <= a < 20)) /\
  (forall db ft s r s',
      ToQuestion db ft s = Return (r, s') ->
      let s1 := rand.skip (length (Problems ft)) s in
      (0 < MeanAge ft /\ 0 < StdDevAge ft ->
       ocmr.Age r =
         Z.max 0 (float64.to_int
                    (float64.add
                       (float64.mul (rand.normFloat64 (rand.skip 2 s1))
                          (float64.of_int (StdDevAge ft)))
                       (float64.of_int (MeanAge ft)))) /\
       0 <= ocmr.Age r) /\
      (MeanAge ft <= 0 \/ StdDevAge ft <= 0 ->
       randomAge s1 = Return (ocmr.Age r, rand.skip 2 s1) /\
       (((1 # 100) < rand.float32 s1)%Q -> 20 <= ocmr.Age r < 100) /\
       ((rand.float32 s1 <= 1 # 100)%Q -> 0 <= ocmr.Age r < 20))).
Proof.
  split; [exact randomAge_eq|].
  intros db ft s r s' H s1.
  apply ToQuestion_Return in H as (_ & (age0 & Hage0 & Hage) & _).
  fold s1 in Hage0, Hage. unfold hasAgeModel in Hage.
  split.
  - intros (Hm & Hsd).
    destruct (Z.ltb_spec 0 (MeanAge ft)); [|lia].
    destruct (Z.ltb_spec 0 (StdDevAge ft)); [|lia].
    simpl in Hage. split; [exact Hage|]. rewrite Hage. lia.
  - intros Hno.
    assert ((0 <? MeanAge ft) && (0 <? StdDevAge ft) = false) as Hb.
    { destruct (Z.ltb_spec 0 (MeanAge ft)); [|reflexivity].
      destruct (Z.ltb_spec 0 (StdDevAge ft)); [lia|reflexivity]. }
    rewrite Hb in Hage. subst age0.
    destruct (randomAge_eq s1) as (a & Ha & Hadult & Hyoung).
    rewrite Hage0 in Ha. injection Ha as <-. auto.
Qed.

Lemma ToQuestion_age_witness :
  (exists r s',
      ToQuestion (Examples.gateway [] None)
        (Examples.sampleTruth NoSexBias 60 10) Examples.zeros = Return (r, s') /\
      ocmr.Age r = 60 /\ 0 <= ocmr.Age r) /\
  (exists r s',
      ToQuestion (Examples.gateway [] None)
        (Examples.sampleTruth NoSexBias 60 10) Examples.tenth = Return (r, s') /\
      Qeq (rand.normFloat64
             (rand.skip 2
                (rand.skip (length (Problems (Examples.sampleTruth NoSexBias 60 10)))
                   Examples.tenth)))
          (Qmake 450359962737049 (2 ^ 52)) /\
      ocmr.Age r = 61).
Proof.
  split.
  - destruct (ToQuestion_total (Examples.gateway [] None)
                (Examples.sampleTruth NoSexBias 60 10) Examples.zeros
                ltac:(intros c; reflexivity)) as (r & s' & Hrun).
    exists r, s'. split; [exact Hrun|].
    destruct (proj1 (proj2 ToQuestion_age _ _ _ _ _ Hrun)
                ltac:(simpl; lia)) as (Hage & Hpos).
    split; [|exact Hpos]. rewrite Hage. vm_compute. reflexivity.
  - destruct (ToQuestion_total (Examples.gateway [] None)
                (Examples.sampleTruth NoSexBias 60 10) Examples.tenth
                ltac:(intros c; reflexivity)) as (r & s' & Hrun).
    exists r, s'. split; [exact Hrun|].
    destruct (proj1 (proj2 ToQuestion_age _ _ _ _ _ Hrun)
                ltac:(simpl; lia)) as (Hage & Hpos).
    split; [vm_compute; reflexivity|]. rewrite Hage. vm_compute. reflexivity.
Defined.

(** C9: RandomSex gives male for men-only and female for female-only
    without a draw; for no-bias it gives male when its Float32 draw is at
    least 0.5 and female otherwise, which half of the 2^24 values of the
    draw decide each way.  A record that ToQuestion returns has the sex
    that RandomSex gives for the sex bias of the truth. *)
Theorem ToQuestion_sex :
  (forall s, RandomSex MenOnly s = Return (ocmr.Male, s)) /\
  (forall s, RandomSex FemaleOnly s = Return (ocmr.Female, s)) /\
  (forall s,
      RandomSex NoSexBias s =
      Return (if Qle_bool (1 # 2) (rand.float32 s) then ocmr.Male else ocmr.Female,
              rand.tail s) /\
      (Qle_bool (1 # 2) (rand.float32 s) = true <->
       2 ^ 23 <= rand.head s mod 2 ^ 24) /\
      0 <= rand.head s mod 2 ^ 24 < 2 * 2 ^ 23) /\
  (forall db ft s r s',
      ToQuestion db ft s = Return (r, s') ->
      (SexBias_ ft = MenOnly -> ocmr.Sex_ r = ocmr.Male) /\
      (SexBias_ ft = FemaleOnly -> ocmr.Sex_ r = ocmr.Female) /\
      (SexBias_ ft = NoSexBias ->
       let s1 := rand.skip (length (Problems ft)) s in
       let s2 := if hasAgeModel ft then rand.skip 3 s1 else rand.skip 2 s1 in
       ocmr.Sex_ r =
         if Qle_bool (1 # 2) (rand.float32 s2) then ocmr.Male else ocmr.Female)).
Proof.
  split; [reflexivity|]. split; [reflexivity|]. split.
  - intros s. split; [apply RandomSex_eq|]. split; [apply float32_half|].
    apply Z.mod_pos_bound. lia.
  - intros db ft s r s' H.
    apply ToQuestion_Return in H as (_ & _ & (s3 & Hsex) & _).
    rewrite RandomSex_eq in Hsex.
    split; [|split]; intros Hb; rewrite Hb in Hsex; injection Hsex as <-;
      reflexivity.
Qed.

Lemma ToQuestion_sex_witness :
  (exists r s',
      ToQuestion (Examples.gateway [] None)
        (Examples.sampleTruth MenOnly 60 10) Examples.rising = Return (r, s') /\
      ocmr.Sex_ r = ocmr.Male) /\
  (exists r s',
      ToQuestion (Examples.gateway [] None)
        (Examples.sampleTruth FemaleOnly 0 0) Examples.rising = Return (r, s') /\
      ocmr.Sex_ r = ocmr.Female).
Proof.
  split.
  - destruct (ToQuestion_total (Examples.gateway [] None)
                (Examples.sampleTruth MenOnly 60 10) Examples.rising
                ltac:(intros c; reflexivity)) as (r & s' & Hrun).
    exists r, s'. split; [exact Hrun|].
    exact (proj1 (proj2 (proj2 (proj2 ToQuestion_sex)) _ _ _ _ _ Hrun) eq_refl).
  - destruct (ToQuestion_total (Examples.gateway [] None)
                (Examples.sampleTruth FemaleOnly 0 0) Examples.rising
                ltac:(intros c; reflexivity)) as (r & s' & Hrun).
    exists r, s'. split; [exact Hrun|].
    exact (proj1 (proj2 (proj2 (proj2 (proj2 ToQuestion_sex)) _ _ _ _ _ Hrun))
             eq_refl).
Defined.

(** *** The replication count *)

Lemma wrap64_small z : - 2 ^ 63 <= z < 2 ^ 63 -> wrap64 z = z.
Proof. intros Hz. unfold wrap64. rewrite Z.mod_small; lia. Qed.

Lemma truncate_floor x : (0 <= x)%Q -> truncate x = Qfloor x.
Proof.
  destruct x as [n d]. unfold Qle, truncate, Qfloor. simpl.
  intros Hn. apply Z.quot_div_nonneg; lia.
Qed.

Lemma round_nonneg x : (0 <= x)%Q -> (0 <= float64.round x)%Q.
Proof.
  intros Hx. unfold float64.round. destruct x as [[|n|n] d]; simpl.
  - discriminate.
  - apply round_pos_nonneg. reflexivity.
  - exfalso. apply Hx. reflexivity.
Qed.

(** Rounding to float64 is monotone. *)
Lemma round_le x y :
  (0 <= x)%Q -> (x <= y)%Q -> (float64.round x <= float64.round y)%Q.
Proof.
  intros Hx Hxy.
  assert (0 <= y)%Q as Hy by (eapply Qle_trans; eassumption).
  destruct x as [[|n|n] d].
  - apply round_nonneg. exact Hy.
  - assert (0 < Z.pos n # d)%Q as Hpos by reflexivity.
    assert (0 < y)%Q as Hypos by (eapply Qlt_le_trans; eassumption).
    destruct y as [[|m|m] e]; [discriminate Hypos| |discriminate Hypos].
    unfold float64.round. simpl. apply round_pos_le; assumption.
  - exfalso. apply Hx. reflexivity.
Qed.

(** The integers below 2^53 are float64 values. *)
Lemma round_Z k :
  0 <= k < 2 ^ 53 -> (float64.round (inject_Z k) == inject_Z k)%Q.
Proof.
  intros Hk. unfold float64.round, inject_Z at 1. cbn [Qnum].
  destruct k as [|n|n]; [reflexivity| |lia].
  unfold float64.round_pos. cbv zeta.
  assert (0 < inject_Z (Z.pos n))%Q as Hpos by reflexivity.
  destruct (ilog2_spec _ Hpos) as (Hl & _).
  change (Z.pos n # 1) with (inject_Z (Z.pos n)).
  set (il := float64.ilog2 (inject_Z (Z.pos n))) in *.
  assert (il < 53) as Hil.
  { apply (Qpower_lt_compat_l_inv 2); [|reflexivity].
    eapply Qle_lt_trans; [exact Hl|].
    change (2 ^ 53)%Q with (float64.pow2 53).
    rewrite (pow2_Z 53) by lia. rewrite <- Zlt_Qlt. lia. }
  set (e := Z.max (il - 52) (-1074)).
  assert (e <= 0) as He by lia.
  assert (float64.pow2 e * float64.pow2 (- e) == 1)%Q as Hinv.
  { rewrite <- pow2_add. replace (e + - e) with 0 by lia. reflexivity. }
  assert (inject_Z (Z.pos n) / float64.pow2 e
          == inject_Z (Z.pos n * 2 ^ (- e)))%Q as Hdiv.
  { rewrite inject_Z_mult, <- (pow2_Z (- e)) by lia.
    apply Qmult_inj_r with (float64.pow2 e).
    - intros H0. pose proof (pow2_pos e) as Hp. rewrite H0 in Hp. discriminate.
    - unfold Qdiv. rewrite <- !Qmult_assoc.
      rewrite (Qmult_comm (/ float64.pow2 e)), Qmult_inv_r.
      + rewrite (Qmult_comm (float64.pow2 (- e))), Hinv. reflexivity.
      + intros H0. pose proof (pow2_pos e) as Hp. rewrite H0 in Hp. discriminate. }
  rewrite (rne_comp _ _ Hdiv), rne_Z.
  rewrite inject_Z_mult, <- (pow2_Z (- e)) by lia.
  rewrite <- Qmult_assoc, (Qmult_comm (float64.pow2 (- e))), Hinv.
  apply Qmult_1_r.
Qed.

(** Rounding never takes a value below the integer it reached. *)
Lemma floor_le_floor_round x :
  (0 <= x)%Q -> Qfloor x < 2 ^ 53 -> Qfloor x <= Qfloor (float64.round x).
Proof.
  intros Hx Hk.
  assert (0 <= Qfloor x) as Hk0.
  { rewrite <- (Qfloor_Z 0). apply Qfloor_resp_le. exact Hx. }
  rewrite <- (Qfloor_Z (Qfloor x)) at 1. apply Qfloor_resp_le.
  rewrite <- (round_Z (Qfloor x)) by lia.
  apply round_le; [|apply Qfloor_le].
  change 0%Q with (inject_Z 0). rewrite <- Zle_Qle. exact Hk0.
Qed.

Lemma to_int_floor x :
  (0 <= x)%Q -> Qfloor x < 2 ^ 63 -> float64.to_int x = Qfloor x.
Proof.
  intros Hx Hk. unfold float64.to_int. cbv zeta.
  rewrite (truncate_floor x Hx).
  assert (0 <= Qfloor x) as Hk0.
  { rewrite <- (Qfloor_Z 0). apply Qfloor_resp_le. exact Hx. }
  destruct (Z.leb_spec (- 2 ^ 63) (Qfloor x)); [|lia].
  destruct (Z.ltb_spec (Qfloor x) (2 ^ 63)); [reflexivity|lia].
Qed.

Lemma scaled_nonneg p : (0 <= p)%Q -> (0 <= p * inject_Z 10000)%Q.
Proof. intros H0. apply Qmult_le_0_compat; [exact H0|discriminate]. Qed.

Lemma scaled_range p :
  (0 <= p)%Q -> (p <= 1)%Q ->
  (0 <= float64.mul p (inject_Z 10000))%Q /\
  0 <= Qfloor (float64.mul p (inject_Z 10000)) <= 10000.
Proof.
  intros H0 H1. unfold float64.mul.
  pose proof (round_nonneg _ (scaled_nonneg p H0)) as Hr0.
  split; [exact Hr0|]. split.
  - rewrite <- (Qfloor_Z 0). apply Qfloor_resp_le. exact Hr0.
  - rewrite <- (Qfloor_Z 10000) at 2. apply Qfloor_resp_le.
    apply Qle_trans with (float64.round (inject_Z 10000));
      [|rewrite round_Z by lia; apply Qle_refl].
    apply round_le; [apply scaled_nonneg; exact H0|].
    apply Qle_trans with (1 * inject_Z 10000)%Q;
      [apply Qmult_le_compat_r; [exact H1|discriminate]|].
    unfold Qle. simpl. lia.
Qed.

Lemma replicationCount_exact p n :
  (0 <= p)%Q -> (p <= 1)%Q -> - 2 ^ 49 <= n <= 2 ^ 49 ->
  replicationCount p n = 5 + Qfloor (float64.mul p (inject_Z 10000)) * n.
Proof.
  intros H0 H1 Hn. unfold replicationCount.
  destruct (scaled_range p H0 H1) as (Hr0 & Hk).
  rewrite (to_int_floor _ Hr0) by lia.
  assert (- (10000 * 2 ^ 49)
          <= Qfloor (float64.mul p (inject_Z 10000)) * n <= 10000 * 2 ^ 49)
    as Hkn by nia.
  rewrite (wrap64_small (Qfloor (float64.mul p (inject_Z 10000)) * n)) by lia.
  apply wrap64_small. lia.
Qed.

Lemma append_questions_length db truth k :
  forall questions s out s',
    append_questions db truth k questions s = Return (out, s') ->
    length out = (length questions + k)%nat.
Proof.
  induction k as [|k IH]; intros questions s out s' H; simpl in H.
  - injection H as <- _. lia.
  - bind_inv_in H as q sq Hq. apply IH in H. rewrite H, length_app. simpl. lia.
Qed.

Lemma append_questions_total db truth k :
  (forall c, snd (GetAllParents db c) = None) ->
  forall questions s, exists out s',
    append_questions db truth k questions s = Return (out, s').
Proof.
  intros Hok. induction k as [|k IH]; intros questions s; simpl.
  - eexists _, _. reflexivity.
  - destruct (ToQuestion_total db truth s Hok) as (q & sq & Hq).
    erewrite bind_eq by exact Hq. apply IH.
Qed.

(** X20: for a prevalence of [0, 1] and a scale factor n within 2^49 in
    absolute value, so that the 64-bit int does not wrap, the replication
    count is 5 + floor(prevalence * 10000) * n for the float64 product.
    For n >= 0 it is at least 5, so that at least 5 records are appended
    for the truth, and it is monotone: a prevalence p2 <= prevalence has a
    count that is at most the count of the prevalence. *)
Theorem replicationCount_spec prevalence n :
  (0 <= prevalence)%Q -> (prevalence <= 1)%Q -> - 2 ^ 49 <= n <= 2 ^ 49 ->
  replicationCount prevalence n
  = 5 + Qfloor (float64.mul prevalence (inject_Z 10000)) * n /\
  (0 <= n ->
   5 <= replicationCount prevalence n /\
   (forall db truth questions s out s',
       questionsOf db truth prevalence n questions s = Return (out, s') ->
       (length questions + 5 <= length out)%nat) /\
   forall p2, (0 <= p2)%Q -> (p2 <= prevalence)%Q ->
              replicationCount p2 n <= replicationCount prevalence n).
Proof.
  intros H0 H1 Hn. split; [apply replicationCount_exact; assumption|].
  intros Hpos.
  destruct (scaled_range prevalence H0 H1) as (_ & Hk).
  assert (5 <= replicationCount prevalence n) as Hfive
    by (rewrite replicationCount_exact by assumption; nia).
  split; [exact Hfive|]. split.
  - intros db truth questions s out s' H. unfold questionsOf in H.
    apply append_questions_length in H. lia.
  - intros p2 Hp0 Hp2.
    rewrite (replicationCount_exact prevalence) by assumption.
    rewrite replicationCount_exact
      by first [assumption | eapply Qle_trans; [exact Hp2|exact H1]].
    assert (Qfloor (float64.mul p2 (inject_Z 10000))
            <= Qfloor (float64.mul prevalence (inject_Z 10000))) as Hm.
    { apply Qfloor_resp_le. unfold float64.mul.
      apply round_le; [apply scaled_nonneg; exact Hp0|].
      apply Qmult_le_compat_r; [exact Hp2|discriminate]. }
    nia.
Qed.

Lemma replicationCount_spec_witness :
  replicationCount (1 # 100) 3 = 305 /\
  5 <= replicationCount (1 # 100) 3 /\
  (exists out s',
      questionsOf (Examples.gateway [] None) (Examples.sampleTruth NoSexBias 60 10)
        (1 # 100) 3 [] Examples.zeros = Return (out, s') /\
      (5 <= length out)%nat) /\
  replicationCount (1 # 1000) 3 <= replicationCount (1 # 100) 3.
Proof.
  destruct (replicationCount_spec (1 # 100) 3
              ltac:(discriminate) ltac:(discriminate) ltac:(lia))
    as (Heq & Hrest).
  destruct (Hrest ltac:(lia)) as (Hfive & Hlen & Hmono).
  split; [rewrite Heq; reflexivity|].
  split; [exact Hfive|].
  split; [|apply Hmono; discriminate].
  destruct (append_questions_total (Examples.gateway [] None)
              (Examples.sampleTruth NoSexBias 60 10)
              (Z.to_nat (replicationCount (1 # 100) 3))
              ltac:(intros c; reflexivity) [] Examples.zeros)
    as (out & s' & Hrun).
  exists out, s'. split; [exact Hrun|].
  exact (Hlen _ _ _ _ _ _ Hrun).
Defined.

(** C5: the replication count is not at least 5 for every scale factor.
    n is also the limit on the number of diagnoses, and line 31 takes a
    negative n for no limit; with n = -1 and the float64 prevalence 0.01
    the count is 5 - 100 = -95, so the diagnosis gets no question, and the
    count decreases as the prevalence grows, where line 53 wants a number
    of questions commensurate with the prevalence. *)
Theorem replicationCount_negative_scale :
  replicationCount (float64.round (1 # 100)) (-1) = -95 /\
  ~ 5 <= replicationCount (float64.round (1 # 100)) (-1) /\
  (forall db truth questions s,
      questionsOf db truth (float64.round (1 # 100)) (-1) questions s
      = Return (questions, s)) /\
  (float64.round (1 # 100) < float64.round (2 # 100))%Q /\
  ~ replicationCount (float64.round (1 # 100)) (-1)
    <= replicationCount (float64.round (2 # 100)) (-1).
Proof.
  assert (replicationCount (float64.round (1 # 100)) (-1) = -95) as Hcount
    by (vm_compute; reflexivity).
  split; [exact Hcount|].
  split; [rewrite Hcount; lia|].
  split; [intros db truth questions s; unfold questionsOf; rewrite Hcount;
          reflexivity|].
  split; [vm_compute; reflexivity|]. vm_compute. intros H; apply H; reflexivity.
Qed.

(** ** Further properties of the code *)

(** *** Discovery: the map of candidates *)

Lemma add_symptoms_inv dbs symptoms :
  forall m m',
    add_symptoms dbs symptoms m = Return m' ->
    (forall p, p ∈ symptoms -> p <> None) /\
    (forall k v, m' !! k = Some v ->
                 m !! k = Some v \/ candidateEntry dbs symptoms k v) /\
    (forall k, is_Some (m !! k) -> is_Some (m' !! k)) /\
    (forall c, Some c ∈ symptoms -> IsA dbs c (SctDisease dbs) = false ->
               is_Some (m' !! ConceptID c)).
Proof.
  induction symptoms as [|[c|] rest IH]; intros m m' H; simpl in H;
    [|apply IH in H as (Hnil & Hsound & Hmono & Hcompl)|discriminate].
  - injection H as <-. repeat split; auto.
    + intros p Hin. inversion Hin.
    + intros c Hin. inversion Hin.
  - split; [|split; [|split]].
    + intros p Hin. apply elem_of_cons in Hin as [->|Hin]; [discriminate|auto].
    + intros k v Hv. destruct (Hsound k v Hv) as [Hold|(Hin & Hc)].
      * destruct (IsA dbs c (SctDisease dbs)) eqn:Hisa; simpl in Hold; [auto|].
        destruct (decide (ConceptID c = k)) as [<-|Hne].
        -- rewrite lookup_insert_eq in Hold. injection Hold as <-.
           right. split; [left|]. exists c. auto.
        -- rewrite lookup_insert_ne in Hold by exact Hne. auto.
      * right. split; [right; exact Hin|exact Hc].
    + intros k Hk. apply Hmono.
      destruct (IsA dbs c (SctDisease dbs)); simpl; [exact Hk|].
      destruct (decide (ConceptID c = k)) as [<-|Hne].
      * rewrite lookup_insert_eq. eauto.
      * rewrite lookup_insert_ne by exact Hne. exact Hk.
    + intros c' Hin Hisa. apply elem_of_cons in Hin as [Heq|Hin]; [|auto].
      injection Heq as ->. apply Hmono. rewrite Hisa. simpl.
      rewrite lookup_insert_eq. eauto.
Qed.

Lemma candidateEntry_mono dbs l1 l2 k v :
  (forall p, p ∈ l1 -> p ∈ l2) -> candidateEntry dbs l1 k v -> candidateEntry dbs l2 k v.
Proof. intros Hsub (Hin & Hc). split; auto. Qed.

Lemma scan_children_inv dbs children :
  forall m m',
    scan_children dbs children m = Return (Next m') ->
    let symptoms :=
      children ≫= (fun child => fst (GetChildrenOfKind dbs child FindingSite)) in
    (forall p, p ∈ symptoms -> p <> None) /\
    (forall k v, m' !! k = Some v ->
                 m !! k = Some v \/ candidateEntry dbs symptoms k v) /\
    (forall k, is_Some (m !! k) -> is_Some (m' !! k)) /\
    (forall c, Some c ∈ symptoms -> IsA dbs c (SctDisease dbs) = false ->
               is_Some (m' !! ConceptID c)).
Proof.
  induction children as [|child rest IH]; intros m m' H; simpl in H.
  - injection H as <-. simpl. repeat split; auto.
    + intros p Hin. inversion Hin.
    + intros c Hin. inversion Hin.
  - destruct (GetChildrenOfKind dbs child FindingSite) as [symptoms [e|]] eqn:Hq;
      [discriminate|].
    destruct (add_symptoms dbs symptoms m) as [m1|p] eqn:Hadd; [|discriminate].
    apply add_symptoms_inv in Hadd as (Hnil1 & Hsound1 & Hmono1 & Hcompl1).
    apply IH in H as (Hnil2 & Hsound2 & Hmono2 & Hcompl2).
    cbn [mbind list_bind]. rewrite Hq. cbn [fst].
    split; [|split; [|split]].
    + intros p Hin. apply elem_of_app in Hin as [Hin|Hin]; auto.
    + intros k v Hv. destruct (Hsound2 k v Hv) as [Hold|Hc].
      * destruct (Hsound1 k v Hold) as [Hold'|Hc]; [auto|].
        right. eapply candidateEntry_mono; [|exact Hc].
        intros p Hp. apply elem_of_app. auto.
      * right. eapply candidateEntry_mono; [|exact Hc].
        intros p Hp. apply elem_of_app. auto.
    + intros k Hk. auto.
    + intros c Hin Hisa. apply elem_of_app in Hin as [Hin|Hin]; auto.
Qed.

Lemma scan_sites_inv dbs sites :
  forall m m',
    scan_sites dbs sites m = Return (Next m') ->
    let symptoms :=
      (sites ≫= (fun site => fst (FetchRecursiveChildren dbs site)))
        ≫= (fun child => fst (GetChildrenOfKind dbs child FindingSite)) in
    (forall p, p ∈ symptoms -> p <> None) /\
    (forall k v, m' !! k = Some v ->
                 m !! k = Some v \/ candidateEntry dbs symptoms k v) /\
    (forall k, is_Some (m !! k) -> is_Some (m' !! k)) /\
    (forall c, Some c ∈ symptoms -> IsA dbs c (SctDisease dbs) = false ->
               is_Some (m' !! ConceptID c)).
Proof.
  induction sites as [|site rest IH]; intros m m' H; simpl in H.
  - injection H as <-. simpl. repeat split; auto.
    + intros p Hin. inversion Hin.
    + intros c Hin. inversion Hin.
  - destruct (FetchRecursiveChildren dbs site) as [children err] eqn:Hq.
    destruct (scan_children dbs children m) as [[m1|e]|p] eqn:Hc;
      [|discriminate..].
    apply scan_children_inv in Hc as (Hnil1 & Hsound1 & Hmono1 & Hcompl1).
    apply IH in H as (Hnil2 & Hsound2 & Hmono2 & Hcompl2).
    cbn [mbind list_bind]. rewrite Hq. cbn [fst].
    change (list_bind _ _ ?f ?l) with (l ≫= f) in *.
    rewrite bind_app.
    split; [|split; [|split]].
    + intros p Hin. apply elem_of_app in Hin as [Hin|Hin]; auto.
    + intros k v Hv. destruct (Hsound2 k v Hv) as [Hold|Hce].
      * destruct (Hsound1 k v Hold) as [Hold'|Hce]; [auto|].
        right. eapply candidateEntry_mono; [|exact Hce].
        intros p Hp. apply elem_of_app. auto.
      * right. eapply candidateEntry_mono; [|exact Hce].
        intros p Hp. apply elem_of_app. auto.
    + intros k Hk. auto.
    + intros c Hin Hisa. apply elem_of_app in Hin as [Hin|Hin]; auto.
Qed.

Lemma relatedBySite_Return_inv dbs concept symptoms :
  relatedBySiteForDiagnosis dbs concept = Return (symptoms, None) ->
  exists m,
    scan_sites dbs
      (genericSitesOf dbs (fst (GetParentsOfKind dbs concept FindingSite))) ∅
    = Return (Next m) /\
    symptoms = MapToSlice dbs m.
Proof.
  unfold relatedBySiteForDiagnosis.
  destruct (GetParentsOfKind dbs concept FindingSite) as [sites [e|]];
    [discriminate|]. simpl.
  destruct (scan_sites dbs (genericSitesOf dbs sites) ∅) as [[m|e]|p];
    [|discriminate..].
  intros H. injection H as <-. eauto.
Qed.

(** X1: when discovery returns a candidate set, it is the slice of a map
    in which every entry is a non-nil symptom returned by a finding-site
    query below a generic site, stored under its own concept identifier,
    and is not a disease. *)
Theorem relatedBySite_candidates_sound dbs concept symptoms :
  relatedBySiteForDiagnosis dbs concept = Return (symptoms, None) ->
  exists m : gmap Z ConceptPtr,
    symptoms = MapToSlice dbs m /\
    forall k v, m !! k = Some v ->
      v ∈ childSymptoms dbs concept /\
      exists c, v = Some c /\ ConceptID c = k /\
                IsA dbs c (SctDisease dbs) = false.
Proof.
  intros H. apply relatedBySite_Return_inv in H as (m & Hscan & ->).
  exists m. split; [reflexivity|].
  apply scan_sites_inv in Hscan as (_ & Hsound & _).
  intros k v Hv. destruct (Hsound k v Hv) as [Hold|Hc].
  - rewrite lookup_empty in Hold. discriminate.
  - exact Hc.
Qed.

Lemma relatedBySite_candidates_sound_witness :
  exists m : gmap Z ConceptPtr,
    [Examples.concept 31] = MapToSlice Examples.flakyGateway m /\
    forall k v, m !! k = Some v ->
      v ∈ childSymptoms Examples.flakyGateway Examples.diagnosis1 /\
      exists c, v = Some c /\ ConceptID c = k /\
                IsA Examples.flakyGateway c (SctDisease Examples.flakyGateway) = false.
Proof.
  apply (relatedBySite_candidates_sound Examples.flakyGateway Examples.diagnosis1).
  vm_compute. reflexivity.
Defined.

(** X2: when discovery returns a candidate set, no symptom of a
    finding-site query is nil, and every such symptom that is not a disease
    has an entry under its concept identifier in the map of candidates:
    nothing but diseases is lost, and symptoms that share an identifier
    share one entry. *)
Theorem relatedBySite_candidates_complete dbs concept symptoms :
  relatedBySiteForDiagnosis dbs concept = Return (symptoms, None) ->
  exists m : gmap Z ConceptPtr,
    symptoms = MapToSlice dbs m /\
    (forall p, p ∈ childSymptoms dbs concept -> p <> None) /\
    forall c, Some c ∈ childSymptoms dbs concept ->
              IsA dbs c (SctDisease dbs) = false ->
              exists c', m !! ConceptID c = Some (Some c') /\
                         ConceptID c' = ConceptID c.
Proof.
  intros H. apply relatedBySite_Return_inv in H as (m & Hscan & ->).
  exists m. split; [reflexivity|].
  apply scan_sites_inv in Hscan as (Hnil & Hsound & _ & Hcompl).
  split; [exact Hnil|].
  intros c Hin Hisa. destruct (Hcompl c Hin Hisa) as (v & Hv).
  destruct (Hsound _ _ Hv) as [Hold|(_ & c' & -> & Hid & _)].
  - rewrite lookup_empty in Hold. discriminate.
  - exists c'. auto.
Qed.

Lemma relatedBySite_candidates_complete_witness :
  exists m : gmap Z ConceptPtr,
    [Examples.concept 31] = MapToSlice Examples.flakyGateway m /\
    (forall p, p ∈ childSymptoms Examples.flakyGateway Examples.diagnosis1 ->
               p <> None) /\
    forall c, Some c ∈ childSymptoms Examples.flakyGateway Examples.diagnosis1 ->
              IsA Examples.flakyGateway c (SctDisease Examples.flakyGateway) = false ->
              exists c', m !! ConceptID c = Some (Some c') /\
                         ConceptID c' = ConceptID c.
Proof.
  apply (relatedBySite_candidates_complete Examples.flakyGateway Examples.diagnosis1).
  vm_compute. reflexivity.
Defined.

Lemma add_symptoms_Panic dbs symptoms :
  forall m p, add_symptoms dbs symptoms m = Panic p ->
              p = PanicNilDeref /\ None ∈ symptoms.
Proof.
  induction symptoms as [|[c|] rest IH]; intros m p H; simpl in H.
  - discriminate.
  - apply IH in H as (-> & Hin). split; [reflexivity|right; exact Hin].
  - injection H as <-. split; [reflexivity|left].
Qed.

Lemma scan_children_Panic dbs children :
  forall m p,
    scan_children dbs children m = Panic p ->
    p = PanicNilDeref /\
    None ∈ children ≫= (fun child => fst (GetChildrenOfKind dbs child FindingSite)).
Proof.
  induction children as [|child rest IH]; intros m p H; simpl in H;
    [discriminate|].
  cbn [mbind list_bind].
  destruct (GetChildrenOfKind dbs child FindingSite) as [symptoms [e|]];
    [discriminate|]. cbn [fst].
  destruct (add_symptoms dbs symptoms m) as [m1|p1] eqn:Hadd.
  - apply IH in H as (-> & Hin). split; [reflexivity|].
    apply elem_of_app. right. exact Hin.
  - injection H as <-. apply add_symptoms_Panic in Hadd as (-> & Hin).
    split; [reflexivity|]. apply elem_of_app. left. exact Hin.
Qed.

Lemma scan_sites_Panic dbs sites :
  forall m p,
    scan_sites dbs sites m = Panic p ->
    p = PanicNilDeref /\
    None ∈ (sites ≫= (fun site => fst (FetchRecursiveChildren dbs site)))
             ≫= (fun child => fst (GetChildrenOfKind dbs child FindingSite)).
Proof.
  induction sites as [|site rest IH]; intros m p H; simpl in H; [discriminate|].
  cbn [mbind list_bind].
  destruct (FetchRecursiveChildren dbs site) as [children err]. cbn [fst].
  change (list_bind _ _ ?f ?l) with (l ≫= f) in *.
  rewrite bind_app.
  destruct (scan_children dbs children m) as [[m1|e]|p1] eqn:Hc.
  - apply IH in H as (-> & Hin). split; [reflexivity|].
    apply elem_of_app. right. exact Hin.
  - discriminate.
  - injection H as <-. apply scan_children_Panic in Hc as (-> & Hin).
    split; [reflexivity|]. apply elem_of_app. left. exact Hin.
Qed.

(** X3: discovery panics only by dereferencing a nil symptom that a
    finding-site query returned; it never panics otherwise. *)
Theorem relatedBySite_panics_on_nil_only dbs concept p :
  relatedBySiteForDiagnosis dbs concept = Panic p ->
  p = PanicNilDeref /\ None ∈ childSymptoms dbs concept.
Proof.
  unfold relatedBySiteForDiagnosis, childSymptoms, childQueries.
  destruct (GetParentsOfKind dbs concept FindingSite) as [sites [e|]];
    [discriminate|]. simpl.
  destruct (scan_sites dbs (genericSitesOf dbs sites) ∅) as [[m|e]|p1] eqn:Hs;
    [discriminate..|].
  intros H. injection H as <-. apply scan_sites_Panic in Hs. exact Hs.
Qed.

Lemma relatedBySite_panics_on_nil_only_witness :
  PanicNilDeref = PanicNilDeref /\
  None ∈ childSymptoms (Examples.gateway [Examples.concept 10; None] None)
           Examples.diagnosis1.
Proof.
  apply (relatedBySite_panics_on_nil_only
           (Examples.gateway [Examples.concept 10; None] None) Examples.diagnosis1).
  vm_compute. reflexivity.
Defined.

Lemma genericise_sites_none dbs structures2 sites :
  (forall site, site ∈ sites -> snd (Genericise dbs site structures2) = false) ->
  forall acc, genericise_sites dbs structures2 sites acc = acc.
Proof.
  induction sites as [|site rest IH]; intros Hno acc; simpl; [reflexivity|].
  pose proof (Hno site ltac:(left)) as Hsite.
  destruct (Genericise dbs site structures2) as [g ok]. simpl in Hsite. subst ok.
  apply IH. intros site' Hin. apply Hno. right. exact Hin.
Qed.

(** X4: a diagnosis whose finding-site query succeeds but none of whose
    sites generalises to a high-level structure of the map that discovery
    hands to Genericise (in particular a diagnosis without a site) has the
    candidates of the empty map, and no finding-site query is made below a
    generic site.  If the slice of the empty map is empty, generateTruth
    returns found=false and leaves the random source as it was. *)
Theorem relatedBySite_no_generic_site dbs concept :
  snd (GetParentsOfKind dbs concept FindingSite) = None ->
  (forall site, site ∈ fst (GetParentsOfKind dbs concept FindingSite) ->
                snd (Genericise dbs site (structureMap dbs)) = false) ->
  relatedBySiteForDiagnosis dbs concept = Return (MapToSlice dbs ∅, None) /\
  childQueries dbs concept = [] /\
  (MapToSlice dbs ∅ = [] ->
   forall s, generateTruth dbs concept s = Return ((None, false), s)).
Proof.
  intros Herr Hno.
  assert (genericSitesOf dbs (fst (GetParentsOfKind dbs concept FindingSite)) = [])
    as Hgen.
  { unfold genericSitesOf. unfold structureMap in Hno.
    destruct (FetchConcept dbs 51185008) as [thoracic err].
    destruct (GetSiblings dbs thoracic) as [structures err'].
    apply genericise_sites_none. exact Hno. }
  assert (relatedBySiteForDiagnosis dbs concept = Return (MapToSlice dbs ∅, None))
    as Hrel.
  { unfold relatedBySiteForDiagnosis.
    destruct (GetParentsOfKind dbs concept FindingSite) as [sites err].
    simpl in Herr, Hgen. subst err. rewrite Hgen. reflexivity. }
  split; [exact Hrel|]. split.
  - unfold childQueries. rewrite Hgen. reflexivity.
  - intros Hempty s. apply generateTruth_empty. rewrite Hrel, Hempty. reflexivity.
Qed.

Lemma relatedBySite_no_generic_site_witness :
  fst (GetParentsOfKind Examples.unmatched Examples.diagnosis1 FindingSite)
    = [Examples.concept 2] /\
  Genericise Examples.unmatched (Examples.concept 2) {[ 99 := Examples.concept 99 ]}
    = (Examples.concept 99, true) /\
  relatedBySiteForDiagnosis Examples.unmatched Examples.diagnosis1
    = Return (MapToSlice Examples.unmatched ∅, None) /\
  childQueries Examples.unmatched Examples.diagnosis1 = [] /\
  (MapToSlice Examples.unmatched ∅ = [] ->
   forall s, generateTruth Examples.unmatched Examples.diagnosis1 s
             = Return ((None, false), s)).
Proof.
  split; [reflexivity|]. split; [vm_compute; reflexivity|].
  apply (relatedBySite_no_generic_site Examples.unmatched Examples.diagnosis1).
  - reflexivity.
  - intros site Hin. vm_compute. reflexivity.
Defined.

(** *** Sampling: when ToQuestion returns, and the order of the findings *)

Lemma sample_findings_ok db problems s0 :
  forall k acc fs s',
    sample_findings db problems acc (rand.skip k s0) = Return (fs, s') ->
    forall p, p ∈ (kept problems s0 k).*2 ->
              snd (GetAllParents db (Problem_ p)) = None.
Proof.
  induction problems as [|q rest IH]; intros k acc fs s' H p Hin; simpl in H.
  - inversion Hin.
  - bind_inv_in H as u su Hu. injection Hu as <- <-.
    rewrite float64_skip in H. rewrite kept_cons in Hin.
    change (rand.tail (rand.skip k s0)) with (rand.skip (S k) s0) in H.
    destruct (Qltb (draw64 s0 k) (Probability q)).
    + bind_inv_in H as f sf Hf. apply lift_Return in Hf as (Hf & ->).
      apply ToFinding_Return in Hf as (_ & Hq).
      simpl in Hin. apply elem_of_cons in Hin as [->|Hin]; [exact Hq|].
      eapply IH; eassumption.
    + eapply IH; eassumption.
Qed.

Lemma sample_findings_complete db problems s0 :
  forall k acc,
    (forall p, p ∈ (kept problems s0 k).*2 ->
               snd (GetAllParents db (Problem_ p)) = None) ->
    exists fs s', sample_findings db problems acc (rand.skip k s0) = Return (fs, s').
Proof.
  induction problems as [|q rest IH]; intros k acc Hok; simpl.
  - eexists _, _. reflexivity.
  - erewrite bind_eq by reflexivity.
    rewrite float64_skip. rewrite kept_cons in Hok.
    change (rand.tail (rand.skip k s0)) with (rand.skip (S k) s0).
    destruct (Qltb (draw64 s0 k) (Probability q)).
    + assert (ToFinding db q = Return (findingOf db q)) as Hf.
      { unfold ToFinding, findingOf. specialize (Hok q ltac:(left)).
        destruct (GetAllParents db (Problem_ q)) as [parents err].
        simpl in Hok. subst err. reflexivity. }
      erewrite bind_eq by (unfold rand.lift; rewrite Hf; reflexivity).
      apply IH. intros p Hin. apply Hok. right. exact Hin.
    + apply IH. exact Hok.
Qed.

Lemma sample_findings_Panic db problems s0 :
  forall k acc pv,
    sample_findings db problems acc (rand.skip k s0) = Panic pv ->
    exists e, pv = PanicError e.
Proof.
  induction problems as [|q rest IH]; intros k acc pv H; simpl in H.
  - discriminate.
  - unfold rand.bind at 1 in H. unfold rand.Float64 in H.
    change (rand.tail (rand.skip k s0)) with (rand.skip (S k) s0) in H.
    destruct (Qltb (rand.float64 (rand.skip k s0)) (Probability q)).
    + unfold rand.bind at 1, rand.lift, ToFinding in H.
      destruct (GetAllParents db (Problem_ q)) as [parents [e|]]; simpl in H.
      * injection H as <-. eauto.
      * exact (IH (S k) _ pv H).
    + exact (IH (S k) _ pv H).
Qed.

(** After the findings, ToQuestion goes on to a record or panics on the
    ancestors of the diagnosis. *)
Lemma ToQuestion_continue db ft s fs s1 :
  sample_findings db (Problems ft) [] s = Return (fs, s1) ->
  match snd (GetAllParents db (Diagnosis ft)) with
  | None => exists r s', ToQuestion db ft s = Return (r, s')
  | Some e => ToQuestion db ft s = Panic (PanicError e)
  end.
Proof.
  intros Hfs. unfold ToQuestion.
  erewrite bind_eq by exact Hfs.
  destruct (randomAge_eq s1) as (a & Ha & _).
  erewrite bind_eq by exact Ha.
  destruct (age_step_total ((0 <? MeanAge ft) && (0 <? StdDevAge ft))
              (fun z =>
                 let age := float64.to_int
                              (float64.add
                                 (float64.mul z (float64.of_int (StdDevAge ft)))
                                 (float64.of_int (MeanAge ft))) in
                 if age <? 0 then 0 else age)
              a (rand.skip 2 s1)) as (age & sg & Hage).
  erewrite bind_eq by exact Hage.
  assert (exists sex sx, RandomSex (SexBias_ ft) sg = Return (sex, sx))
    as (sex & sx & Hsex).
  { rewrite RandomSex_eq. destruct (SexBias_ ft); eexists _, _; reflexivity. }
  erewrite bind_eq by exact Hsex.
  destruct (GetAllParents db (Diagnosis ft)) as [parents [e|]]; simpl.
  - reflexivity.
  - eexists _, _. reflexivity.
Qed.

(** X5: ToQuestion returns a record exactly when the ancestors can be
    fetched for the diagnosis and for every problem that the draws
    include; the ancestors of a problem that is not included are not
    asked for.  Otherwise it panics with the error of a query, and it
    never panics in another way. *)
Theorem ToQuestion_returns_iff db ft s :
  ((exists r s', ToQuestion db ft s = Return (r, s')) <->
   snd (GetAllParents db (Diagnosis ft)) = None /\
   forall p, p ∈ included (Problems ft) s ->
             snd (GetAllParents db (Problem_ p)) = None) /\
  (forall pv, ToQuestion db ft s = Panic pv -> exists e, pv = PanicError e).
Proof.
  split; [split|].
  - intros (r & s' & H).
    split; [apply ToQuestion_Return in H; tauto|].
    unfold ToQuestion in H. bind_inv_in H as fs sf Hfs.
    exact (sample_findings_ok db (Problems ft) s 0 [] fs sf Hfs).
  - intros (Hdiag & Hincl).
    destruct (sample_findings_complete db (Problems ft) s 0 [] Hincl)
      as (fs & s1 & Hfs).
    pose proof (ToQuestion_continue db ft s fs s1 Hfs) as Hc.
    rewrite Hdiag in Hc. exact Hc.
  - intros pv H.
    destruct (sample_findings db (Problems ft) [] s) as [[fs s1]|pf] eqn:Hfs.
    + pose proof (ToQuestion_continue db ft s fs s1 Hfs) as Hc.
      destruct (snd (GetAllParents db (Diagnosis ft))) as [e|].
      * rewrite Hc in H. injection H as <-. eauto.
      * destruct Hc as (r & s' & Hr). rewrite Hr in H. discriminate.
    + unfold ToQuestion in H. rewrite (bind_Panic _ _ _ _ Hfs) in H.
      injection H as <-.
      exact (sample_findings_Panic db (Problems ft) s 0 [] pf Hfs).
Qed.

Lemma kept_sublist problems s :
  forall k, (kept problems s k).*2 `sublist_of` problems.
Proof.
  induction problems as [|p rest IH]; intros k.
  - constructor.
  - rewrite kept_cons. destruct (Qltb (draw64 s k) (Probability p)).
    + simpl. apply sublist_skip. apply IH.
    + apply sublist_cons. apply IH.
Qed.

(** X6: the findings of a record are those of a sublist of the problems
    of the truth, in the order of the problems, each with the concept and
    the duration of its problem; a record has at most as many findings as
    the truth has problems, and none when the truth has none. *)
Theorem ToQuestion_findings_in_order db ft s r s' :
  ToQuestion db ft s = Return (r, s') ->
  exists l,
    l `sublist_of` Problems ft /\
    Forall2 (fun f p => ocmr.cf_Concept f = Problem_ p /\
                        ocmr.cf_Duration f = Duration p /\
                        ocmr.cf_Parents f = fst (GetAllParents db (Problem_ p)))
      (ocmr.Findings r) l /\
    (length (ocmr.Findings r) <= length (Problems ft))%nat /\
    (Problems ft = [] -> ocmr.Findings r = []).
Proof.
  intros H. apply ToQuestion_Return in H as (Hf & _).
  exists (included (Problems ft) s).
  pose proof (kept_sublist (Problems ft) s 0) as Hsub.
  split; [exact Hsub|]. split; [|split].
  - rewrite Hf. apply Forall2_fmap_l. apply Forall_Forall2_diag.
    apply Forall_forall. intros p _. simpl. auto.
  - rewrite Hf, length_map. apply sublist_length. exact Hsub.
  - intros Hnil. rewrite Hf, Hnil. reflexivity.
Qed.

Lemma ToQuestion_findings_in_order_witness :
  exists r s' l,
    ToQuestion (Examples.gateway [] None)
      (Examples.sampleTruth NoSexBias 60 10) Examples.zeros = Return (r, s') /\
    l `sublist_of` Problems (Examples.sampleTruth NoSexBias 60 10) /\
    (length (ocmr.Findings r) <= 2)%nat.
Proof.
  destruct (ToQuestion_total (Examples.gateway [] None)
              (Examples.sampleTruth NoSexBias 60 10) Examples.zeros
              ltac:(intros c; reflexivity)) as (r & s' & Hrun).
  destruct (ToQuestion_findings_in_order _ _ _ _ _ Hrun)
    as (l & Hsub & _ & Hlen & _).
  exists r, s', l. auto.
Defined.

(** *** Truths and the records sampled from them *)

Lemma float64_range s : (0 <= rand.float64 s)%Q /\ (rand.float64 s < 1)%Q.
Proof. exact (draw64_range s 0). Qed.

Lemma draw_problems_probability symptoms totalSymptoms k :
  forall s ps s',
    draw_problems symptoms totalSymptoms k s = Return (ps, s') ->
    Forall (fun p => (0 <= Probability p)%Q /\ (Probability p < 1)%Q) ps.
Proof.
  induction k as [|k IH]; intros s ps s' H; simpl in H.
  - injection H as <- _. constructor.
  - bind_inv_in H as i si Hi.
    bind_inv_in H as symptom ssym Hsym.
    bind_inv_in H as d sd Hd.
    bind_inv_in H as u su Hu. injection Hu as <- <-.
    bind_inv_in H as rest sr Hrest. apply IH in Hrest.
    injection H as <- _. constructor; [|exact Hrest].
    simpl. apply float64_range.
Qed.

Lemma generateTruth_problems db diag s t found s' :
  generateTruth db diag s = Return ((Some t, found), s') ->
  exists symptoms total k s1 s2,
    draw_problems symptoms total k s1 = Return (Problems t, s2).
Proof.
  unfold generateTruth. intros H.
  bind_inv_in H as related sr Hrel. destruct related as [symptoms err].
  bind_inv_in H as u su Hu.
  destruct (0 <? Z.of_nat (length symptoms)); [|discriminate].
  bind_inv_in H as r sn Hr.
  destruct (GetAllParents db diag) as [parents perr].
  bind_inv_in H as u' su' Hu'.
  bind_inv_in H as ps sp Hps.
  bind_inv_in H as age sa Hage.
  bind_inv_in H as b sb Hb.
  bind_inv_in H as sd ss Hsd.
  injection H as <- _ _. simpl. eauto 8.
Qed.

(** X7: a truth that generateTruth returns has found=true, the diagnosis
    it was asked for and the ancestors the gateway gives for it, at most
    30 problems, each with a probability of [0, 1), a mean age of
    [1, 100) and a standard deviation of [0, 19] below the mean age. *)
Theorem generateTruth_truth_invariants db diag s t found s' :
  generateTruth db diag s = Return ((Some t, found), s') ->
  found = true /\
  Diagnosis t = diag /\
  Parents t = fst (GetAllParents db diag) /\
  (length (Problems t) <= 30)%nat /\
  Forall (fun p => (0 <= Probability p)%Q /\ (Probability p < 1)%Q) (Problems t) /\
  1 <= MeanAge t < 100 /\
  0 <= StdDevAge t <= 19 /\ StdDevAge t < MeanAge t.
Proof.
  intros H.
  destruct (generateTruth_problems _ _ _ _ _ _ H)
    as (symptoms' & total & k & s1 & s2 & Hps).
  apply draw_problems_probability in Hps.
  apply generateTruth_Return in H as (symptoms & _ & [(_ & Hr & _)|Hsome]);
    [discriminate|].
  destruct Hsome as (t' & Hr & _ & _ & Hd & Hp & Hk & _ & _ & Hm & Hsd).
  injection Hr as <- <-.
  repeat split; try assumption; lia.
Qed.

Lemma generateTruth_truth_invariants_witness :
  exists t s',
    generateTruth
      (Examples.gateway [Examples.concept 10; Examples.concept 11; Examples.concept 12] None)
      Examples.diagnosis1 Examples.rising = Return ((Some t, true), s') /\
    Diagnosis t = Examples.diagnosis1 /\
    (length (Problems t) <= 30)%nat /\
    1 <= MeanAge t < 100 /\ 0 <= StdDevAge t <= 19.
Proof.
  assert (exists t s',
             generateTruth
               (Examples.gateway
                  [Examples.concept 10; Examples.concept 11; Examples.concept 12] None)
               Examples.diagnosis1 Examples.rising = Return ((Some t, true), s'))
    as (t & s' & Hrun).
  { eexists. apply result_Some. vm_compute. reflexivity. }
  destruct (generateTruth_truth_invariants _ _ _ _ _ _ Hrun)
    as (_ & Hd & _ & Hlen & _ & Hm & Hsd & _).
  exists t, s'. auto.
Defined.

(** X8: every record sampled from a truth that generateTruth returned has
    the diagnosis as its answer with the ancestors of the truth, the sex
    that the sex bias of the truth fixes (no coin is thrown, so all the
    records of one truth have the same sex), and findings that are
    candidates of the discovery with an acute, subacute or chronic
    duration. *)
Theorem generated_truth_records db diag s t found s1 :
  generateTruth db diag s = Return ((Some t, found), s1) ->
  exists symptoms,
    relatedBySiteForDiagnosis db diag = Return (symptoms, None) /\
    forall s2 r s3,
      ToQuestion db t s2 = Return (r, s3) ->
      ocmr.Answer r = diag /\
      ocmr.Parents r = Parents t /\
      ocmr.Sex_ r = (if SexBias_ t is MenOnly then ocmr.Male else ocmr.Female) /\
      Forall (fun f => ocmr.cf_Concept f ∈ symptoms /\
                       (ocmr.cf_Duration f = ocmr.Acute \/
                        ocmr.cf_Duration f = ocmr.Subacute \/
                        ocmr.cf_Duration f = ocmr.Chronic))
        (ocmr.Findings r).
Proof.
  intros H.
  apply generateTruth_Return in H as (symptoms & Hrel & [(_ & Hr & _)|Hsome]);
    [discriminate|].
  destruct Hsome as (t' & Hr & _ & _ & Hd & Hp & _ & Hall & Hsb & _).
  injection Hr as <- _.
  exists symptoms. split; [exact Hrel|].
  intros s2 r s3 Hq.
  pose proof (kept_sublist (Problems t) s2 0) as Hsub.
  apply ToQuestion_Return in Hq as (Hf & _ & (sx & Hsex) & Ha & Hpar & _).
  rewrite RandomSex_eq in Hsex.
  split; [congruence|]. split; [congruence|]. split.
  - destruct Hsb as [Hb|Hb]; rewrite Hb in Hsex |- *; injection Hsex as <-;
      reflexivity.
  - rewrite Hf. apply Forall_fmap. apply Forall_forall. intros p Hin.
    assert (p ∈ Problems t) as Hin' by (eapply elem_of_sublist; eassumption).
    rewrite Forall_forall in Hall. destruct (Hall p Hin') as ((i & Hi & Hl) & Hdur).
    simpl. split; [|exact Hdur].
    eapply list_elem_of_lookup_2. exact Hl.
Qed.

Lemma generated_truth_records_witness :
  exists t s' symptoms,
    generateTruth
      (Examples.gateway [Examples.concept 10; Examples.concept 11; Examples.concept 12] None)
      Examples.diagnosis1 Examples.rising = Return ((Some t, true), s') /\
    relatedBySiteForDiagnosis
      (Examples.gateway [Examples.concept 10; Examples.concept 11; Examples.concept 12] None)
      Examples.diagnosis1 = Return (symptoms, None) /\
    exists r s3,
      ToQuestion
        (Examples.gateway [Examples.concept 10; Examples.concept 11; Examples.concept 12] None)
        t Examples.zeros = Return (r, s3) /\
      ocmr.Answer r = Examples.diagnosis1 /\
      ocmr.Sex_ r = (if SexBias_ t is MenOnly then ocmr.Male else ocmr.Female).
Proof.
  assert (exists t s',
             generateTruth
               (Examples.gateway
                  [Examples.concept 10; Examples.concept 11; Examples.concept 12] None)
               Examples.diagnosis1 Examples.rising = Return ((Some t, true), s'))
    as (t & s' & Hrun).
  { eexists. apply result_Some. vm_compute. reflexivity. }
  destruct (generated_truth_records _ _ _ _ _ _ Hrun) as (symptoms & Hrel & Hrec).
  destruct (ToQuestion_total
              (Examples.gateway
                 [Examples.concept 10; Examples.concept 11; Examples.concept 12] None)
              t Examples.zeros ltac:(intros c; reflexivity)) as (r & s3 & Hq).
  destruct (Hrec _ _ _ Hq) as (Ha & _ & Hsex & _).
  exists t, s', symptoms. split; [exact Hrun|]. split; [exact Hrel|].
  exists r, s3. auto.
Defined.

(** *** Explicit truths: the first error wins *)

Lemma to_fake_problems_first_error db l1 ep l2 e :
  (forall p, p ∈ l1 -> snd (FetchConcept db (conceptID p)) = None) ->
  snd (FetchConcept db (conceptID ep)) = Some e ->
  forall acc, to_fake_problems db (l1 ++ ep :: l2) acc = ReturnErr e.
Proof.
  intros Hok He. induction l1 as [|p rest IH]; intros acc; simpl.
  - rewrite toFakeProblem_spec, He. reflexivity.
  - rewrite toFakeProblem_spec, (Hok p ltac:(left)).
    apply IH. intros p' Hin. apply Hok. right. exact Hin.
Qed.

(** X9: toFakeTruth asks for the diagnosis, then for the problems in
    their order, then for the ancestors, and returns the first error with
    no Truth: the error of the diagnosis lookup whatever the problems are,
    and the error of the first problem that does not resolve whatever
    follows it.  It returns a Truth or an error, never both and never
    neither. *)
Theorem toFakeTruth_first_error db et :
  (forall e, snd (FetchConcept db (diagnosis et)) = Some e ->
             toFakeTruth db et = (None, Some e)) /\
  (forall l1 ep l2 e,
      problems et = l1 ++ ep :: l2 ->
      snd (FetchConcept db (diagnosis et)) = None ->
      (forall p, p ∈ l1 -> snd (FetchConcept db (conceptID p)) = None) ->
      snd (FetchConcept db (conceptID ep)) = Some e ->
      toFakeTruth db et = (None, Some e)) /\
  ((exists t, toFakeTruth db et = (Some t, None)) \/
   (exists e, toFakeTruth db et = (None, Some e))).
Proof.
  split; [|split].
  - intros e He. unfold toFakeTruth.
    destruct (FetchConcept db (diagnosis et)) as [d err]. simpl in He. subst err.
    reflexivity.
  - intros l1 ep l2 e Hsplit Hd Hok He. unfold toFakeTruth.
    destruct (FetchConcept db (diagnosis et)) as [d err]. simpl in Hd. subst err.
    rewrite Hsplit, (to_fake_problems_first_error db l1 ep l2 e Hok He).
    reflexivity.
  - pose proof (toFakeTruth_spec db et) as Hs.
    destruct (toFakeTruth db et) as [[t|] [e|]]; try contradiction; eauto.
Qed.

Lemma toFakeTruth_first_error_witness :
  toFakeTruth Examples.partialGateway myocardialInfarction
  = (None, Some "concept 415690000 not found"%string).
Proof.
  apply (proj1 (proj2 (toFakeTruth_first_error Examples.partialGateway
                         myocardialInfarction))
           [mkExplicitProblem 29857009 ocmr.Acute (95 # 100);
            mkExplicitProblem 267036007 ocmr.Acute (70 # 100)]
           (mkExplicitProblem 415690000 ocmr.Acute (80 # 100))
           [mkExplicitProblem 426555006 ocmr.Acute (55 # 100);
            mkExplicitProblem 76388001 ocmr.Acute (60 # 100)]).
  - reflexivity.
  - reflexivity.
  - intros p Hin.
    repeat (apply elem_of_cons in Hin as [->|Hin]; [reflexivity|]).
    inversion Hin.
  - reflexivity.
Defined.

(** X10: toFakeTruth keeps the problems of the literal: when it returns a
    Truth, the Truth has as many problems as the literal, in the same
    order, each with the concept found under its identifier and the
    duration and probability of the literal; its sex bias is no-bias and
    its ancestors are those of the concept found for the diagnosis. *)
Theorem toFakeTruth_keeps_problems db et t err :
  toFakeTruth db et = (Some t, err) ->
  err = None /\
  Diagnosis t = fst (FetchConcept db (diagnosis et)) /\
  Parents t = fst (GetAllParents db (Diagnosis t)) /\
  SexBias_ t = NoSexBias /\
  length (Problems t) = length (problems et) /\
  Forall2 (fun p ep => Problem_ p = fst (FetchConcept db (conceptID ep)) /\
                       snd (FetchConcept db (conceptID ep)) = None /\
                       Duration p = duration ep /\
                       Probability p = probability ep)
    (Problems t) (problems et).
Proof.
  intros H. pose proof (toFakeTruth_spec db et) as Hs. rewrite H in Hs.
  destruct err as [e|]; [contradiction|].
  destruct Hs as (_ & Hok & _ & ->). simpl.
  repeat split; try reflexivity.
  - apply length_map.
  - apply Forall2_fmap_l. apply Forall_Forall2_diag.
    apply Forall_forall. intros ep Hin. simpl. auto.
Qed.

Lemma toFakeTruth_keeps_problems_witness :
  exists t,
    toFakeTruth (Examples.gateway [] None) Examples.wideTruth = (Some t, None) /\
    length (Problems t) = 1%nat /\ SexBias_ t = NoSexBias.
Proof.
  assert (exists t, toFakeTruth (Examples.gateway [] None) Examples.wideTruth
                    = (Some t, None)) as (t & Hrun).
  { eexists. vm_compute. reflexivity. }
  destruct (toFakeTruth_keeps_problems _ _ _ _ Hrun) as (_ & _ & _ & Hsb & Hlen & _).
  exists t. auto.
Defined.

(** *** Rendering a record *)

(** X11: Duration.String gives the five durations five different names,
    and gives the name of the unknown duration to every int that is not
    one of acute, subacute, chronic and episodic. *)
Theorem Duration_String_names :
  (forall d d' : ocmr.Duration,
      Duration_String (Duration_int d) = Duration_String (Duration_int d') ->
      d = d') /\
  (forall z, Duration_String z = "Unknown"%string <-> ~ 1 <= z <= 4) /\
  (forall z, 0 <= z <= 4 -> exists d, Duration_int d = z).
Proof.
  split; [|split].
  - intros [] []; simpl; intros H; try reflexivity; discriminate.
  - intros z. unfold Duration_String.
    destruct (Z.eqb_spec z 1); [split; [discriminate|lia]|].
    destruct (Z.eqb_spec z 2); [split; [discriminate|lia]|].
    destruct (Z.eqb_spec z 3); [split; [discriminate|lia]|].
    destruct (Z.eqb_spec z 4); [split; [discriminate|lia]|].
    split; [lia|reflexivity].
  - intros z Hz.
    assert (z = 0 \/ z = 1 \/ z = 2 \/ z = 3 \/ z = 4) as [->|[->|[->|[->| ->]]]]
      by lia.
    + exists ocmr.Unknown. reflexivity.
    + exists ocmr.Acute. reflexivity.
    + exists ocmr.Subacute. reflexivity.
    + exists ocmr.Chronic. reflexivity.
    + exists ocmr.Episodic. reflexivity.
Qed.

Lemma finding_strings_spec fs :
  forall acc,
    match finding_strings fs acc with
    | Return out =>
        (forall f, f ∈ fs -> ocmr.cf_Concept f <> None) /\
        length out = (length acc + length fs)%nat
    | Panic p =>
        p = PanicNilDeref /\ exists f, f ∈ fs /\ ocmr.cf_Concept f = None
    end.
Proof.
  induction fs as [|f rest IH]; intros acc; simpl.
  - split; [intros f Hin; inversion Hin|lia].
  - unfold ClinicalFinding_String.
    destruct (ocmr.cf_Concept f) as [c|] eqn:Hc.
    + specialize (IH (acc ++ [Duration_String (Duration_int (ocmr.cf_Duration f))
                                +:+ " " +:+ FullySpecifiedName c])).
      destruct (finding_strings rest _) as [out|p].
      * destruct IH as (Hnil & Hlen). split.
        -- intros f' Hin. apply elem_of_cons in Hin as [->|Hin];
             [congruence|auto].
        -- rewrite Hlen, length_app. simpl. lia.
      * destruct IH as (-> & f' & Hin & Hf'). split; [reflexivity|].
        exists f'. split; [right|]; auto.
    + split; [reflexivity|]. exists f. split; [left|exact Hc].
Qed.

(** X12: Record.String returns a string exactly when the answer and the
    concept of every finding are non-nil pointers; otherwise it panics
    with a nil dereference, and with nothing else. *)
Theorem Record_String_returns_iff q :
  ((exists str, Record_String q = Return str) <->
   ocmr.Answer q <> None /\
   forall f, f ∈ ocmr.Findings q -> ocmr.cf_Concept f <> None) /\
  (forall p, Record_String q = Panic p -> p = PanicNilDeref).
Proof.
  unfold Record_String.
  pose proof (finding_strings_spec (ocmr.Findings q) []) as Hs.
  destruct (finding_strings (ocmr.Findings q) []) as [out|pf].
  - destruct Hs as (Hnil & _).
    destruct (ocmr.Answer q) as [a|].
    + split; [|discriminate]. split; [|eauto].
      intros _. split; [discriminate|exact Hnil].
    + split; [|intros p H; injection H as <-; reflexivity].
      split; [intros (str & H); discriminate|intros (H & _); congruence].
  - destruct Hs as (-> & f & Hin & Hf).
    split; [|intros p H; injection H as <-; reflexivity].
    split; [intros (str & H); discriminate|].
    intros (_ & Hnil). exfalso. exact (Hnil f Hin Hf).
Qed.

(** *** The questions of a truth and the corpus *)

Lemma append_questions_spec db truth k :
  forall questions s out s',
    append_questions db truth k questions s = Return (out, s') ->
    exists extra,
      out = questions ++ extra /\ length extra = k /\
      Forall (fun r => ocmr.Answer r = Diagnosis truth /\
                       ocmr.Parents r = fst (GetAllParents db (Diagnosis truth)))
        extra.
Proof.
  induction k as [|k IH]; intros questions s out s' H; simpl in H.
  - injection H as <- _. exists []. rewrite app_nil_r. repeat split. constructor.
  - bind_inv_in H as q sq Hq.
    apply ToQuestion_Return in Hq as (_ & _ & _ & Ha & Hp & _).
    apply IH in H as (extra & -> & Hlen & Hall).
    exists (q :: extra). rewrite <- app_assoc. simpl.
    repeat split; [congruence|]. constructor; auto.
Qed.

(** X13: the questions of a truth are appended after the questions that
    are there: when questionsOf returns, its result is the questions it
    was given followed by as many records as the replication count (none
    when the count is not positive), every one of them with the diagnosis
    of the truth as its answer. *)
Theorem questionsOf_appends db truth prevalence n questions s out s' :
  questionsOf db truth prevalence n questions s = Return (out, s') ->
  exists extra,
    out = questions ++ extra /\
    Z.of_nat (length extra) = Z.max 0 (replicationCount prevalence n) /\
    Forall (fun r => ocmr.Answer r = Diagnosis truth /\
                     ocmr.Parents r = fst (GetAllParents db (Diagnosis truth)))
      extra.
Proof.
  unfold questionsOf. intros H.
  apply append_questions_spec in H as (extra & -> & Hlen & Hall).
  exists extra. split; [reflexivity|]. split; [lia|exact Hall].
Qed.

Lemma questionsOf_appends_witness :
  exists out s' extra,
    questionsOf (Examples.gateway [] None) (Examples.sampleTruth NoSexBias 60 10)
      (float64.round (7 # 10000)) 1 [] Examples.zeros = Return (out, s') /\
    out = [] ++ extra /\
    Z.of_nat (length extra) = 12.
Proof.
  destruct (append_questions_total (Examples.gateway [] None)
              (Examples.sampleTruth NoSexBias 60 10)
              (Z.to_nat (replicationCount (float64.round (7 # 10000)) 1))
              ltac:(intros c; reflexivity) [] Examples.zeros)
    as (out & s' & Hrun).
  destruct (questionsOf_appends _ _ _ _ _ _ _ _ Hrun) as (extra & Hout & Hlen & _).
  exists out, s', extra. split; [exact Hrun|]. split; [exact Hout|].
  rewrite Hlen. vm_compute. reflexivity.
Defined.

(** X14: with a negative scale factor a diagnosis that is common enough
    gets no record at all: when floor(prevalence * 10000) * (-n) is at
    least 5, questionsOf returns the questions it was given, makes no
    query and takes no draw. *)
Theorem questionsOf_negative_scale_drops db truth prevalence n questions s :
  (0 <= prevalence)%Q -> (prevalence <= 1)%Q -> - 2 ^ 49 <= n < 0 ->
  5 <= Qfloor (prevalence * inject_Z 10000) * (- n) ->
  questionsOf db truth prevalence n questions s = Return (questions, s).
Proof.
  intros H0 H1 Hn Hk. unfold questionsOf.
  rewrite replicationCount_exact by (try assumption; lia).
  assert (Qfloor (prevalence * inject_Z 10000)
          <= Qfloor (float64.mul prevalence (inject_Z 10000))) as Hup.
  { apply floor_le_floor_round; [apply scaled_nonneg; exact H0|].
    assert (Qfloor (prevalence * inject_Z 10000) <= 10000); [|lia].
    rewrite <- (Qfloor_Z 10000) at 2. apply Qfloor_resp_le.
    apply Qle_trans with (1 * inject_Z 10000)%Q;
      [apply Qmult_le_compat_r; [exact H1|discriminate]|].
    unfold Qle. simpl. lia. }
  replace (Z.to_nat (5 + Qfloor (float64.mul prevalence (inject_Z 10000)) * n))
    with 0%nat by nia.
  reflexivity.
Qed.

Lemma questionsOf_negative_scale_drops_witness :
  questionsOf (Examples.gateway [] None) (Examples.sampleTruth NoSexBias 60 10)
    (1 # 100) (-1) [] Examples.zeros = Return ([], Examples.zeros).
Proof.
  apply questionsOf_negative_scale_drops.
  - discriminate.
  - discriminate.
  - lia.
  - vm_compute. discriminate.
Defined.

Lemma pick_diagnoses_Return allDiagnoses l k :
  forall s ds s',
    pick_diagnoses allDiagnoses l k s = Return (ds, s') ->
    length ds = k /\ Forall (fun d => d ∈ allDiagnoses) ds.
Proof.
  induction k as [|k IH]; intros s ds s' H; simpl in H.
  - injection H as <- _. split; [reflexivity|constructor].
  - bind_inv_in H as r sr Hr.
    bind_inv_in H as d sd Hd. apply lift_Return in Hd as (Hd & ->).
    apply index_Return in Hd as (_ & Hd).
    bind_inv_in H as rest srest Hrest. apply IH in Hrest as (Hlen & Hall).
    injection H as <- _. simpl. split; [congruence|].
    constructor; [|exact Hall]. eapply list_elem_of_lookup_2. exact Hd.
Qed.


Lemma generate_truths_Return db diagnoses :
  forall allTruth s out s',
    generate_truths db diagnoses allTruth s = Return (out, s') ->
    exists extra,
      out = allTruth ++ extra /\
      (length extra <= length diagnoses)%nat /\
      Forall (fun ot => exists t, ot = Some t /\ Diagnosis t ∈ diagnoses) extra.
Proof.
  induction diagnoses as [|diag rest IH]; intros allTruth s out s' H; simpl in H.
  - injection H as <- _. exists []. rewrite app_nil_r.
    split; [reflexivity|]. split; [reflexivity|constructor].
  - bind_inv_in H as r sr Hr. destruct r as [truth ok].
    apply generateTruth_Return in Hr as (symptoms & _ & [(_ & Hnone & _)|Hsome]).
    + injection Hnone as -> ->.
      apply IH in H as (extra & -> & Hlen & Hall).
      exists extra. split; [reflexivity|]. split; [simpl; lia|].
      eapply Forall_impl; [exact Hall|].
      intros ot (t & -> & Hin). exists t. split; [reflexivity|right; exact Hin].
    + destruct Hsome as (t & Hr & _ & _ & Hd & _).
      injection Hr as -> ->.
      apply IH in H as (extra & -> & Hlen & Hall).
      exists (Some t :: extra). rewrite <- app_assoc. simpl.
      split; [reflexivity|]. split; [lia|].
      constructor.
      * exists t. split; [reflexivity|]. rewrite Hd. left.
      * eapply Forall_impl; [exact Hall|].
        intros ot (t' & -> & Hin). exists t'. split; [reflexivity|right; exact Hin].
Qed.

Lemma all_questions_Return calculatePrevalence db n allTruth :
  forall prevalence questions s out s',
    all_questions calculatePrevalence db n allTruth prevalence questions s
    = Return (out, s') ->
    exists extra,
      out = questions ++ extra /\
      Forall (fun r => exists t, Some t ∈ allTruth /\
                                 ocmr.Answer r = Diagnosis t) extra.
Proof.
  induction allTruth as [|[t|] rest IH]; intros prevalence questions s out s' H;
    simpl in H; [| |discriminate].
  - injection H as <- _. exists []. rewrite app_nil_r. split; [reflexivity|constructor].
  - bind_inv_in H as pm sp Hpm. destruct pm as [prev prevalence'].
    bind_inv_in H as qs sq Hqs.
    unfold questionsOf in Hqs.
    apply append_questions_spec in Hqs as (extra1 & -> & _ & Hall1).
    apply IH in H as (extra2 & -> & Hall2).
    exists (extra1 ++ extra2). rewrite app_assoc. split; [reflexivity|].
    apply Forall_app. split.
    + eapply Forall_impl; [exact Hall1|].
      intros r (Ha & _). exists t. split; [left|exact Ha].
    + eapply Forall_impl; [exact Hall2|].
      intros r (t' & Hin & Ha). exists t'. split; [right; exact Hin|exact Ha].
Qed.

Lemma questionsOf_length_zero_scale db truth prevalence s out s' :
  questionsOf db truth prevalence 0 [] s = Return (out, s') ->
  length out = 5%nat /\
  Forall (fun r => ocmr.Answer r = Diagnosis truth) out.
Proof.
  unfold questionsOf, replicationCount. rewrite Z.mul_0_r.
  change (Z.to_nat (wrap64 (5 + wrap64 0))) with 5%nat.
  intros H. apply append_questions_spec in H as (extra & -> & Hlen & Hall).
  simpl. split; [exact Hlen|].
  eapply Forall_impl; [exact Hall|]. intros r (Ha & _). exact Ha.
Qed.

Lemma MyocardialInfarctionTruth_ok db mi :
  MyocardialInfarctionTruth db = (mi, None) ->
  exists t, mi = Some t /\ Diagnosis t = fst (FetchConcept db 22298006).
Proof.
  unfold MyocardialInfarctionTruth. intros H.
  pose proof (toFakeTruth_spec db myocardialInfarction) as Hs. rewrite H in Hs.
  destruct mi as [t|]; [|contradiction].
  destruct Hs as (_ & _ & _ & ->). eexists. split; reflexivity.
Qed.

Lemma GenerateFakeTruth_Return calculatePrevalence db n s qs s' :
  GenerateFakeTruth calculatePrevalence db n s = Return (qs, s') ->
  let root := fst (FetchConcept db SctDiagnosisRoot) in
  let allDiagnoses := fst (FetchRecursiveChildren db root) in
  snd (FetchConcept db SctDiagnosisRoot) = None /\
  snd (FetchRecursiveChildren db root) = None /\
  exists mi diagnoses allTruth s1 s2,
    MyocardialInfarctionTruth db = (mi, None) /\
    (if 0 <=? n
     then length diagnoses = Z.to_nat n /\
          Forall (fun d => d ∈ allDiagnoses) diagnoses
     else diagnoses = allDiagnoses /\ s1 = s) /\
    generate_truths db diagnoses [mi] s1 = Return (allTruth, s2) /\
    all_questions calculatePrevalence db n allTruth ∅ [] s2 = Return (qs, s').
Proof.
  unfold GenerateFakeTruth. intros H. simpl.
  destruct (FetchConcept db SctDiagnosisRoot) as [root [e|]];
    [bind_inv_in H as u su Hu; discriminate|].
  bind_inv_in H as u su Hu. apply lift_Return in Hu as (_ & ->). simpl.
  destruct (FetchRecursiveChildren db root) as [allDiagnoses [e|]];
    [bind_inv_in H as u' su' Hu'; discriminate|].
  bind_inv_in H as u' su' Hu'. apply lift_Return in Hu' as (_ & ->). simpl.
  bind_inv_in H as diagnoses s1 Hpick.
  destruct (MyocardialInfarctionTruth db) as [mi [e|]];
    [bind_inv_in H as u2 su2 Hu2; discriminate|].
  bind_inv_in H as u2 su2 Hu2. apply lift_Return in Hu2 as (_ & ->).
  bind_inv_in H as allTruth s2 Hgen.
  split; [reflexivity|]. split; [reflexivity|].
  exists mi, diagnoses, allTruth, s1, s2.
  split; [reflexivity|]. split; [|auto].
  destruct (0 <=? n).
  - apply pick_diagnoses_Return in Hpick. exact Hpick.
  - injection Hpick as <- <-. auto.
Qed.

(** X15: every question that GenerateFakeTruth produces answers the
    concept found for myocardial infarction (id 22298006) or one of the
    recursive children that the gateway gives for the root of the
    diagnoses. *)
Theorem GenerateFakeTruth_answers calculatePrevalence db n s qs s' :
  GenerateFakeTruth calculatePrevalence db n s = Return (qs, s') ->
  Forall (fun r =>
            ocmr.Answer r = fst (FetchConcept db 22298006) \/
            ocmr.Answer r
              ∈ fst (FetchRecursiveChildren db (fst (FetchConcept db SctDiagnosisRoot))))
    qs.
Proof.
  intros H.
  apply GenerateFakeTruth_Return in H
    as (_ & _ & mi & diagnoses & allTruth & s1 & s2 & Hmi & Hd & Hgen & Hq).
  apply MyocardialInfarctionTruth_ok in Hmi as (tmi & -> & Hdiag).
  apply generate_truths_Return in Hgen as (extra & -> & _ & Hextra).
  apply all_questions_Return in Hq as (out & -> & Hout).
  simpl. eapply Forall_impl; [exact Hout|].
  intros r (t & Hin & Ha). rewrite Ha.
  apply elem_of_cons in Hin as [Heq|Hin].
  - injection Heq as ->. left. exact Hdiag.
  - right. rewrite Forall_forall in Hextra.
    destruct (Hextra _ Hin) as (t' & Heq & Hin'). injection Heq as <-.
    destruct (0 <=? n).
    + destruct Hd as (_ & Hall). rewrite Forall_forall in Hall. auto.
    + destruct Hd as (-> & _). exact Hin'.
Qed.

Lemma GenerateFakeTruth_answers_witness :
  exists qs s',
    GenerateFakeTruth Examples.rarePrevalence
      (Examples.gateway [Examples.concept 10; Examples.concept 11; Examples.concept 12] None)
      1 Examples.rising = Return (qs, s') /\
    length qs = 10%nat /\
    Forall (fun r =>
              ocmr.Answer r = Examples.concept 22298006 \/
              ocmr.Answer r ∈ [Examples.concept 64572001])
      qs.
Proof.
  assert (exists qs,
             rand.result
               (GenerateFakeTruth Examples.rarePrevalence
                  (Examples.gateway
                     [Examples.concept 10; Examples.concept 11; Examples.concept 12] None)
                  1 Examples.rising) = Some qs /\
             length qs = 10%nat) as (qs & Hres & Hlen).
  { eexists. split; vm_compute; reflexivity. }
  apply result_Some in Hres as (s' & Hrun).
  exists qs, s'. split; [exact Hrun|]. split; [exact Hlen|].
  exact (GenerateFakeTruth_answers _ _ _ _ _ _ Hrun).
Defined.

(** X16: with n = 0 no diagnosis is drawn and the count of the explicit
    truth is 5 whatever its prevalence: when GenerateFakeTruth returns, it
    returns exactly 5 questions, all of them answering the concept found
    for myocardial infarction. *)
Theorem GenerateFakeTruth_zero calculatePrevalence db s qs s' :
  GenerateFakeTruth calculatePrevalence db 0 s = Return (qs, s') ->
  length qs = 5%nat /\
  Forall (fun r => ocmr.Answer r = fst (FetchConcept db 22298006)) qs.
Proof.
  intros H.
  apply GenerateFakeTruth_Return in H
    as (_ & _ & mi & diagnoses & allTruth & s1 & s2 & Hmi & Hd & Hgen & Hq).
  apply MyocardialInfarctionTruth_ok in Hmi as (tmi & -> & Hdiag).
  simpl in Hd. destruct Hd as (Hlen & _).
  destruct diagnoses; [|discriminate]. simpl in Hgen. injection Hgen as <- <-.
  simpl in Hq. bind_inv_in Hq as pm sp Hpm. destruct pm as [prev prevalence'].
  bind_inv_in Hq as out sq Hout. injection Hq as <- _.
  apply questionsOf_length_zero_scale in Hout as (Hfive & Hall).
  split; [exact Hfive|].
  eapply Forall_impl; [exact Hall|]. intros r Ha. congruence.
Qed.

Lemma GenerateFakeTruth_zero_witness :
  exists qs s',
    GenerateFakeTruth Examples.rarePrevalence (Examples.gateway [] None) 0
      Examples.zeros = Return (qs, s') /\
    length qs = 5%nat /\
    Forall (fun r => ocmr.Answer r = Examples.concept 22298006) qs.
Proof.
  assert (exists qs,
             rand.result
               (GenerateFakeTruth Examples.rarePrevalence (Examples.gateway [] None) 0
                  Examples.zeros) = Some qs) as (qs & Hres).
  { eexists. vm_compute. reflexivity. }
  apply result_Some in Hres as (s' & Hrun).
  exists qs, s'. split; [exact Hrun|].
  exact (GenerateFakeTruth_zero _ _ _ _ _ Hrun).
Defined.





(** *** Discovery: the errors of the high-level structures *)

Lemma add_symptoms_withStructureErrors dbs e1 e2 symptoms :
  forall m, add_symptoms (withStructureErrors dbs e1 e2) symptoms m
            = add_symptoms dbs symptoms m.
Proof.
  induction symptoms as [|[c|] rest IH]; intros m; simpl; [reflexivity| |reflexivity].
  apply IH.
Qed.

Lemma scan_children_withStructureErrors dbs e1 e2 children :
  forall m, scan_children (withStructureErrors dbs e1 e2) children m
            = scan_children dbs children m.
Proof.
  induction children as [|child rest IH]; intros m; simpl; [reflexivity|].
  destruct (GetChildrenOfKind dbs child FindingSite) as [symptoms [e|]];
    [reflexivity|].
  rewrite add_symptoms_withStructureErrors.
  destruct (add_symptoms dbs symptoms m); [apply IH|reflexivity].
Qed.

Lemma scan_sites_withStructureErrors dbs e1 e2 sites :
  forall m, scan_sites (withStructureErrors dbs e1 e2) sites m
            = scan_sites dbs sites m.
Proof.
  induction sites as [|site rest IH]; intros m; simpl; [reflexivity|].
  destruct (FetchRecursiveChildren dbs site) as [children err].
  rewrite scan_children_withStructureErrors.
  destruct (scan_children dbs children m) as [[m'|e]|p]; auto.
Qed.

Lemma genericSitesOf_withStructureErrors dbs e1 e2 sites :
  genericSitesOf (withStructureErrors dbs e1 e2) sites = genericSitesOf dbs sites.
Proof.
  unfold genericSitesOf. simpl.
  destruct (FetchConcept dbs 51185008) as [thoracic err]. simpl.
  destruct (GetSiblings dbs thoracic) as [structures err']. simpl.
  generalize (SliceToMap dbs (structures ++ [thoracic])) as structures2.
  generalize (@nil ConceptPtr) as acc.
  induction sites as [|site rest IH]; intros acc structures2; simpl; [reflexivity|].
  destruct (Genericise dbs site structures2) as [g ok]. apply IH.
Qed.

(** X19: discovery never looks at the error of the lookup of the
    high-level structure 51185008 nor at the error of the query for its
    siblings: its result depends only on the concept and the siblings
    these calls return, and is the same whatever errors come with them. *)
Theorem relatedBySite_ignores_structure_errors dbs lookupErrs siblingErrs concept :
  relatedBySiteForDiagnosis (withStructureErrors dbs lookupErrs siblingErrs) concept
  = relatedBySiteForDiagnosis dbs concept.
Proof.
  unfold relatedBySiteForDiagnosis. simpl.
  destruct (GetParentsOfKind dbs concept FindingSite) as [sites [e|]];
    [reflexivity|].
  rewrite genericSitesOf_withStructureErrors, scan_sites_withStructureErrors.
  reflexivity.
Qed.
